(** * market-dashboard: the batch-quote and history route handlers

    A shallow embedding of [src/app/api/batch/route.ts] and of the
    validation prefix of [src/app/api/history/route.ts].

    Strings are sequences of UTF-16 code units, objects are finite maps from
    property names to values, and the provider ([yahoo-finance2]) is the
    environment: it settles every lookup the handler starts, in an order and
    with outcomes of its own choosing. *)

From Stdlib Require Import NArith Ascii String SpecFloat ssreflect.
From stdpp Require Import strings gmap list.

#[local] Set Warnings "-rewrite-rw,-register-all".

Local Open Scope N_scope.

(** ** Strings *)

(** A JavaScript string: its UTF-16 code units. *)
Abbreviation jsstring := (list N).

(** A source-code string literal (ASCII) as a JavaScript string. *)
Definition js (s : string) : jsstring :=
  (fun c => N_of_ascii c) <$> list_ascii_of_string s.

Module JsString.

(** ECMAScript [WhiteSpace] and [LineTerminator] code points, the set that
    [String.prototype.trim] strips.  All of them are in the BMP. *)
Definition is_white_space (u : N) : bool :=
  (u =? 0x09) || (u =? 0x0A) || (u =? 0x0B) || (u =? 0x0C) || (u =? 0x0D)
  || (u =? 0x20) || (u =? 0xA0) || (u =? 0x1680)
  || ((0x2000 <=? u) && (u <=? 0x200A))
  || (u =? 0x2028) || (u =? 0x2029) || (u =? 0x202F) || (u =? 0x205F)
  || (u =? 0x3000) || (u =? 0xFEFF).

Fixpoint trimStart (s : jsstring) : jsstring :=
  match s with
  | u :: t => if is_white_space u then trimStart t else s
  | [] => []
  end.

Definition trimEnd (s : jsstring) : jsstring :=
  reverse (trimStart (reverse s)).

(** [s.trim()] *)
Definition trim (s : jsstring) : jsstring := trimEnd (trimStart s).

(** [s.split(sep)] for a separator of one code unit: the pieces between
    the separators, so one piece more than there are separators (the empty
    string splits into one empty piece). *)
Fixpoint split (sep : N) (s : jsstring) : list jsstring :=
  match s with
  | [] => [[]]
  | u :: t =>
      if u =? sep then [] :: split sep t
      else match split sep t with
           | piece :: pieces => (u :: piece) :: pieces
           | [] => [[u]]
           end
  end.

(** UTF-16 decoding: a lead surrogate followed by a trail surrogate is one
    code point, every other code unit stands for itself. *)
Definition is_lead (u : N) : bool := (0xD800 <=? u) && (u <=? 0xDBFF).
Definition is_trail (u : N) : bool := (0xDC00 <=? u) && (u <=? 0xDFFF).

Fixpoint code_points (s : jsstring) : list N :=
  match s with
  | [] => []
  | u :: t =>
      match t with
      | v :: t' =>
          if is_lead u && is_trail v
          then (0x10000 + (u - 0xD800) * 0x400 + (v - 0xDC00)) :: code_points t'
          else u :: code_points t
      | [] => [u]
      end
  end.

Definition code_units (cp : N) : jsstring :=
  if cp <? 0x10000 then [cp]
  else [0xD800 + (cp - 0x10000) / 0x400; 0xDC00 + (cp - 0x10000) mod 0x400].

Definition is_ascii (u : N) : bool := u <? 0x80.

Definition ascii_upper (u : N) : N :=
  if (0x61 <=? u) && (u <=? 0x7A) then u - 0x20 else u.

Definition ascii_lower (u : N) : N :=
  if (0x41 <=? u) && (u <=? 0x5A) then u + 0x20 else u.

Section CaseMapping.
(** The Unicode Character Database is the runtime's, not the
    repository's.  The full upper-case mapping is context-free: a code
    point maps to one, two or three code points, given here as the first
    one and the rest.  Lower-casing is context-sensitive (final sigma),
    so beyond ASCII it is taken on whole strings. *)
Variable unicode_upper : N → N * list N.
Variable unicode_toLowerCase : jsstring → jsstring.

Definition upper_code_point (cp : N) : list N :=
  if is_ascii cp then [ascii_upper cp]
  else let '(c, cs) := unicode_upper cp in c :: cs.

(** [s.toUpperCase()] *)
Definition toUpperCase (s : jsstring) : jsstring :=
  concat (code_units <$> concat (upper_code_point <$> code_points s)).

(** [s.toLowerCase()] *)
Definition toLowerCase (s : jsstring) : jsstring :=
  if forallb is_ascii s then ascii_lower <$> s else unicode_toLowerCase s.
End CaseMapping.

End JsString.

(** ** Values *)

(** A Number: an IEEE-754 double. *)
Abbreviation number := spec_float.

(** The values the handlers pass around: what the provider's payload is made
    of and what [Response.json] is given.  These are plain data: primitives,
    arrays, and objects with own data properties. *)
Inductive value :=
| VUndefined
| VNull
| VBool (b : bool)
| VNum (x : number)
| VStr (s : jsstring)
| VArray (items : list value)
| VObject (props : gmap jsstring value).

(** [ToBoolean]: what [||], [!] and [filter(Boolean)] test. *)
Definition ToBoolean (v : value) : bool :=
  match v with
  | VUndefined | VNull => false
  | VBool b => b
  | VNum (S754_zero _) | VNum S754_nan => false
  | VNum _ => true
  | VStr [] => false
  | VStr _ => true
  | VArray _ | VObject _ => true
  end.

(** [a || b] *)
Definition js_or (a b : value) : value := if ToBoolean a then a else b.
Infix "|||" := js_or (at level 50, left associativity).

(** What a promise is rejected with (and an [await] throws): an [Error]
    instance, with the [name] and [message] strings it carries or inherits,
    or a thrown primitive.  Rejections with objects of other kinds are not
    modelled. *)
Inductive reason :=
| RError (name message : jsstring)
| RUndefined
| RNull
| RBool (b : bool)
| RNum (x : number)
| RStr (s : jsstring).

(** The [TypeError] V8 throws for a property read on [undefined] or [null]
    ([runtime = "nodejs"]). *)
Definition TypeError_read (base : string) (property : string) : reason :=
  RError (js "TypeError")
    (js "Cannot read properties of " ++ js base ++ js " (reading '"
        ++ js property ++ js "')").

(** [q.property] for the property names the handlers read: none of them is
    an own or inherited property of a primitive, an array or
    [Object.prototype], so only the own properties of an object are found,
    and reading from [undefined] or [null] throws. *)
Definition read (q : value) (property : string) : reason + value :=
  match q with
  | VUndefined => inl (TypeError_read "undefined" property)
  | VNull => inl (TypeError_read "null" property)
  | VObject props => inr (default VUndefined (props !! js property))
  | VBool _ | VNum _ | VStr _ | VArray _ => inr VUndefined
  end.

(** [e?.message] *)
Definition message_of (e : reason) : value :=
  match e with
  | RError _ message => VStr message
  | RUndefined | RNull | RBool _ | RNum _ | RStr _ => VUndefined
  end.

(** [searchParams.get(name) || fallback]: the fallback replaces [null] and
    the empty string. *)
Definition param_or (param : option jsstring) (fallback : jsstring) : jsstring :=
  match param with
  | Some s => if ToBoolean (VStr s) then s else fallback
  | None => fallback
  end.

Record Response := { status : Z; body : value }.

(** [Response.json(body, { status })]; the status is 200 when not given. *)
Definition Response_json (body : value) (status : option Z) : Response :=
  {| status := default 200%Z status; body := body |}.

(** ** Code that may throw *)

(** A computation that returns a value or throws. *)
Definition throwing (A : Type) : Type := reason + A.

Definition bind {A B} (m : throwing A) (k : A → throwing B) : throwing B :=
  match m with
  | inl e => inl e
  | inr a => k a
  end.

Notation "'try!' x ← m ; k" := (bind m (fun x => k))
  (at level 10, x name, m at level 100, k at level 200,
   format "'[v' 'try!'  x  ←  m ; '/' k ']'").

(** ** [src/app/api/batch/route.ts] *)

Module Batch.

(** How the provider settles one lookup. *)
Inductive outcome :=
| Fulfils (q : value)
| Rejects (e : reason).

(** An element of the array [Promise.allSettled] resolves to:
    [{ status: "fulfilled", value }] or [{ status: "rejected", reason }]. *)
Inductive settled :=
| Fulfilled (v : gmap jsstring value)
| Rejected (e : reason).

(** What an observer of the handler sees, in order: the calls of
    [yahoo.quote], the lookups settling, the response. *)
Inductive event :=
| Call (i : nat) (ticker : jsstring)
| Settle (i : nat) (r : settled)
| Respond (r : Response).

(** Lines 24-30, with [q] at hand.  A property read has no effect, so
    that [||] skips its right operand is not observable. *)
Definition quote_row (ticker : jsstring) (q : value)
  : throwing (gmap jsstring value) :=
  try! shortName ← read q "shortName";
  try! longName ← read q "longName";
  try! regularMarketPrice ← read q "regularMarketPrice";
  try! regularMarketChangePercent ← read q "regularMarketChangePercent";
  try! currency ← read q "currency";
  inr ({[ js "ticker" := VStr ticker;
          js "name" := shortName ||| longName ||| VStr ticker;
          js "price" := regularMarketPrice;
          js "changePercent" := regularMarketChangePercent;
          js "currency" := currency ]} : gmap jsstring value).

(** The promise of the async callback of lines 22-31, once the lookup it
    awaits has settled: a rejected lookup is rethrown by [await], and
    whatever the body throws rejects the promise. *)
Definition quote_task (ticker : jsstring) (o : outcome) : settled :=
  match o with
  | Rejects e => Rejected e
  | Fulfils q =>
      match quote_row ticker q with
      | inr row => Fulfilled row
      | inl e => Rejected e
      end
  end.

Section Handler.
Variable unicode_upper : N → N * list N.
(** [Number::toString], the runtime's shortest round-trip printer. *)
Variable Number_toString : number → jsstring.

#[local] Abbreviation toUpperCase := (JsString.toUpperCase unicode_upper).

(** [String(e)]: [Error.prototype.toString] for an [Error] instance. *)
Definition String_of (e : reason) : jsstring :=
  match e with
  | RError name message =>
      match name, message with
      | [], _ => message
      | _, [] => name
      | _, _ => name ++ js ": " ++ message
      end
  | RUndefined => js "undefined"
  | RNull => js "null"
  | RBool true => js "true"
  | RBool false => js "false"
  | RNum x => Number_toString x
  | RStr s => s
  end.

(** Lines 12-15. *)
Definition parse_tickers (tickersParam : jsstring) : list jsstring :=
  List.filter (fun t => ToBoolean (VStr t))
    ((fun t => toUpperCase (JsString.trim t))
       <$> JsString.split 0x2C tickersParam).

(** The callback of lines 34-38; [ticker] is [tickers[i]]. *)
Definition result_row (ticker : value) (r : settled) : value :=
  match r with
  | Fulfilled v => VObject (v ∪ {[ js "ok" := VBool true ]})
  | Rejected e =>
      VObject {[ js "ok" := VBool false;
                 js "ticker" := ticker;
                 js "error" := message_of e ||| VStr (String_of e) ]}
  end.

(** The array [Promise.allSettled] resolves to, once no slot is empty. *)
Fixpoint all_settled (slots : list (option settled)) : option (list settled) :=
  match slots with
  | [] => Some []
  | Some r :: slots' => (r ::.) <$> all_settled slots'
  | None :: _ => None
  end.

(** The [await] of line 21.  The environment settles lookup [i] with
    outcome [o], one [(i, o)] at a time; the callback's promise then
    settles and [Promise.allSettled] stores the result in slot [i].  A
    promise settles once: a settlement for a slot that is not pending is
    without effect.  The [await] resumes as soon as every slot is
    filled, and not before; when the environment stops short of that,
    the handler stays suspended. *)
Fixpoint await_all (tickers : list jsstring) (slots : list (option settled))
    (env : list (nat * outcome)) : list event * option (list settled) :=
  match all_settled slots with
  | Some results => ([], Some results)
  | None =>
      match env with
      | [] => ([], None)
      | (i, o) :: env' =>
          match slots !! i, tickers !! i with
          | Some None, Some ticker =>
              let r := quote_task ticker o in
              let '(trace, results) :=
                await_all tickers (<[i := Some r]> slots) env' in
              (Settle i r :: trace, results)
          | _, _ => await_all tickers slots env'
          end
      end
  end.

(** [GET], lines 8-41.  [tickersParam] is [searchParams.get("tickers")],
    [None] for [null].  The callbacks of [tickers.map] run one after the
    other, each as far as its [await], that is, as far as having called
    [yahoo.quote]: every lookup is started before the handler suspends.
    The result is the trace of events and the response, if the handler
    gets to respond. *)
Definition GET (tickersParam : option jsstring) (env : list (nat * outcome))
  : list event * option Response :=
  let tickersParam := param_or tickersParam (js "") in
  let tickers := parse_tickers tickersParam in
  if (length tickers =? 0)%nat then
    let r := Response_json
               (VObject {[ js "error" := VStr (js "Missing tickers") ]})
               (Some 400%Z) in
    ([Respond r], Some r)
  else
    let calls := imap Call tickers in
    let '(settles, results) :=
      await_all tickers ((fun _ => None) <$> tickers) env in
    match results with
    | None => (calls ++ settles, None)
    | Some results =>
        let data :=
          imap (fun i r =>
                  let ticker := from_option VStr VUndefined (tickers !! i) in
                  result_row ticker r) results in
        let r := Response_json (VObject {[ js "data" := VArray data ]}) None in
        (calls ++ settles ++ [Respond r], Some r)
    end.

End Handler.

(** The symbols of a request: [tickers] of line 12. *)
Definition tickers_of (unicode_upper : N → N * list N)
    (tickersParam : option jsstring) : list jsstring :=
  parse_tickers unicode_upper (param_or tickersParam (js "")).

(** The array [data] of line 34. *)
Definition data_of (Number_toString : number → jsstring)
    (tickers : list jsstring) (results : list settled) : list value :=
  imap (fun i r =>
          result_row Number_toString
            (from_option VStr VUndefined (tickers !! i)) r) results.

(** The two responses of the handler. *)
Definition missing_tickers : Response :=
  {| status := 400; body := VObject {[ js "error" := VStr (js "Missing tickers") ]} |}.

Definition ok_response (data : list value) : Response :=
  {| status := 200; body := VObject {[ js "data" := VArray data ]} |}.

(** [undefined] and [null], the values a property read throws on. *)
Definition nullish (q : value) : bool :=
  match q with
  | VUndefined | VNull => true
  | _ => false
  end.

(** The property of a payload that can be read from, [undefined] where it
    has none. *)
Definition property_of (q : value) (property : string) : value :=
  match q with
  | VObject props => default VUndefined (props !! js property)
  | _ => VUndefined
  end.

(** The outcome the environment gives lookup [i]: the first one, later
    ones find the promise settled. *)
Fixpoint first_outcome (env : list (nat * outcome)) (i : nat) : option outcome :=
  match env with
  | [] => None
  | (j, o) :: env' => if (j =? i)%nat then Some o else first_outcome env' i
  end.

(** The environment settles each of the [n] lookups, in some order. *)
Definition settles_all (n : nat) (env : list (nat * outcome)) : Prop :=
  ∀ i, (i < n)%nat → is_Some (first_outcome env i).

(** Slot [i] once the environment has run: a result already stored stays,
    a pending lookup gets the result of its first outcome. *)
Definition final_slot (tickers : list jsstring) (env : list (nat * outcome))
    (i : nat) (slot : option settled) : option settled :=
  match slot with
  | Some r => Some r
  | None =>
      match tickers !! i, first_outcome env i with
      | Some ticker, Some o => Some (quote_task ticker o)
      | _, _ => None
      end
  end.

Definition is_Call (ev : event) : bool :=
  match ev with Call _ _ => true | _ => false end.

Definition is_Settle (ev : event) : bool :=
  match ev with Settle _ _ => true | _ => false end.

(** The display name as the specification words it: the short name if the
    payload has one, otherwise the long name if it has one, otherwise the
    ticker. *)
Definition spec_display_name (props : gmap jsstring value) (ticker : jsstring)
  : value :=
  match props !! js "shortName", props !! js "longName" with
  | Some shortName, _ => shortName
  | None, Some longName => longName
  | None, None => VStr ticker
  end.

(** The error text as the specification words it: the message field when
    the error has one, otherwise the string form of the error. *)
Definition spec_error_text (String_of : reason → jsstring) (e : reason) : value :=
  match e with
  | RError _ message => VStr message
  | _ => VStr (String_of e)
  end.

Section Spec.
Variable unicode_upper : N → N * list N.

(** The parser as the specification words it: split on [,], trim each
    piece, drop the pieces that are empty after trimming, uppercase. *)
Definition spec_parse (raw : jsstring) : list jsstring :=
  JsString.toUpperCase unicode_upper
    <$> List.filter (fun piece => negb (bool_decide (piece = [])))
          (JsString.trim <$> JsString.split 0x2C raw).
End Spec.

End Batch.

(** ** [src/app/api/history/route.ts], up to the call of [yahoo.historical] *)

Module History.

(** Lines 8-13. *)
Definition RANGE_TO_DAYS : gmap jsstring Z :=
  {[ js "1m" := 31%Z; js "3m" := 93%Z; js "6m" := 186%Z; js "1y" := 366%Z ]}.

(** The properties an object literal inherits from [Object.prototype]
    (V8): functions, and for [__proto__] the prototype object itself. *)
Definition Object_prototype : list jsstring :=
  js <$> [ "constructor"; "__defineGetter__"; "__defineSetter__";
           "hasOwnProperty"; "__lookupGetter__"; "__lookupSetter__";
           "isPrototypeOf"; "propertyIsEnumerable"; "toString"; "valueOf";
           "__proto__"; "toLocaleString" ]%string.

(** What [table[key]] finds. *)
Inductive property :=
| Own (days : Z)
| Inherited (name : jsstring)
| Undefined.

(** [RANGE_TO_DAYS[range]] *)
Definition RANGE_TO_DAYS_at (range : jsstring) : property :=
  match RANGE_TO_DAYS !! range with
  | Some days => Own days
  | None =>
      if bool_decide (range ∈ Object_prototype) then Inherited range
      else Undefined
  end.

(** [ToBoolean] of a looked-up property: a number is truthy unless it is
    zero, functions and objects are truthy, [undefined] is not. *)
Definition truthy (p : property) : bool :=
  match p with
  | Own days => negb (days =? 0)%Z
  | Inherited _ => true
  | Undefined => false
  end.

(** How far the handler gets before it suspends: it has responded, or it
    has called [yahoo.historical(ticker, ...)] for the [days] looked up. *)
Inductive progress :=
| Responds (r : Response)
| CallsHistorical (ticker range : jsstring) (days : property).

Section Handler.
Variable unicode_upper : N → N * list N.
Variable unicode_toLowerCase : jsstring → jsstring.

(** [GET], lines 15-33.  The parameters are [searchParams.get("ticker")]
    and [searchParams.get("range")], [None] for [null]. *)
Definition GET (tickerParam rangeParam : option jsstring) : progress :=
  let ticker :=
    JsString.toUpperCase unicode_upper (param_or tickerParam (js "")) in
  let range :=
    JsString.toLowerCase unicode_toLowerCase (param_or rangeParam (js "1y")) in
  if negb (ToBoolean (VStr ticker)) then
    Responds (Response_json
                (VObject {[ js "error" := VStr (js "Missing ticker") ]})
                (Some 400%Z))
  else if negb (truthy (RANGE_TO_DAYS_at range)) then
    Responds (Response_json
                (VObject {[ js "error" := VStr (js "Invalid range") ]})
                (Some 400%Z))
  else
    let days := RANGE_TO_DAYS_at range in
    CallsHistorical ticker range days.
End Handler.

(** [ticker] of line 17 and [range] of line 18. *)
Definition ticker_of (unicode_upper : N → N * list N)
    (tickerParam : option jsstring) : jsstring :=
  JsString.toUpperCase unicode_upper (param_or tickerParam (js "")).

Definition range_of (unicode_toLowerCase : jsstring → jsstring)
    (rangeParam : option jsstring) : jsstring :=
  JsString.toLowerCase unicode_toLowerCase (param_or rangeParam (js "1y")).

(** The ranges the table lists. *)
Definition ranges : list jsstring := js <$> [ "1m"; "3m"; "6m"; "1y" ]%string.

(** The two responses of the validation. *)
Definition missing_ticker : Response :=
  {| status := 400; body := VObject {[ js "error" := VStr (js "Missing ticker") ]} |}.

Definition invalid_range : Response :=
  {| status := 400; body := VObject {[ js "error" := VStr (js "Invalid range") ]} |}.

End History.


(** ** [src/app/page.tsx]: the request of [loadSnapshot] *)

Module Page.

(** [strings.join(sep)] for an array of strings. *)
Fixpoint join (sep : jsstring) (strings : list jsstring) : jsstring :=
  match strings with
  | [] => []
  | [s] => s
  | s :: strings' => s ++ sep ++ join sep strings'
  end.

Definition BIG7 : list jsstring :=
  js <$> [ "AAPL"; "MSFT"; "AMZN"; "GOOGL"; "META"; "NVDA"; "TSLA" ]%string.

Definition US_TOP_13 : list jsstring :=
  js <$> [ "BRK-B"; "JPM"; "JNJ"; "V"; "PG"; "XOM"; "UNH"; "HD"; "MA"; "BAC";
           "WMT"; "AVGO"; "COST" ]%string.

Definition CHILE : list jsstring :=
  js <$> [ "LTM.SN"; "SQM-B.SN"; "CHILE.SN"; "ITAUCL.SN"; "CENCOSUD.SN";
           "BSANTANDER.SN"; "FALABELLA.SN"; "ENELAM.SN"; "BCI.SN";
           "EMBONOR-A.SN" ]%string.

(** [allTickers] of [Page]. *)
Definition allTickers : list jsstring := BIG7 ++ US_TOP_13 ++ CHILE.

(** The [tickers] parameter [loadSnapshot] sends, before
    [encodeURIComponent], which the server's [searchParams.get] undoes. *)
Definition snapshot_query (tickers : list jsstring) : jsstring :=
  join (js ",") tickers.

End Page.

(** A symbol that the parser of the batch route returns as it is. *)
Definition normalized (unicode_upper : N → N * list N) (t : jsstring) : Prop :=
  t ≠ []
  ∧ (0x2C ∉ t)
  ∧ JsString.trim t = t
  ∧ JsString.toUpperCase unicode_upper t = t.

(** The lookups that settle in a trace, in order. *)
Definition settled_indices (trace : list Batch.event) : list nat :=
  omap (fun ev => match ev with Batch.Settle i _ => Some i | _ => None end) trace.



(** ** What the single-item routes share *)

(** [e.message] in a [catch] block: reading from [undefined] or [null]
    throws. *)
Definition catch_message (e : reason) : throwing value :=
  match e with
  | RUndefined => inl (TypeError_read "undefined" "message")
  | RNull => inl (TypeError_read "null" "message")
  | _ => inr (message_of e)
  end.

(** [a ?? b] *)
Definition coalesce (a b : value) : value :=
  if Batch.nullish a then b else a.

(** [xs.map(f)] for a callback that may throw: the first exception ends the
    loop. *)
Fixpoint map_throwing {A B} (f : A → throwing B) (xs : list A) : throwing (list B) :=
  match xs with
  | [] => inr []
  | x :: xs' =>
      try! y ← f x;
      try! ys ← map_throwing f xs';
      inr (y :: ys)
  end.

(** ** [src/app/api/history/route.ts], from the call of [yahoo.historical] on *)

Module HistoryData.

(** A property of a row of the provider's: plain data, or a [Date] instance
    with its time value in milliseconds ([None] for an invalid date). *)
Inductive cell :=
| Plain (v : value)
| DateObject (time : option Z).

(** An element of the array the provider resolves to: plain data, or an
    object some of whose properties are [Date] instances. *)
Inductive row :=
| RowValue (v : value)
| RowObject (props : gmap jsstring cell).

(** [r?.property] *)
Definition optional_read (r : row) (property : string) : cell :=
  match r with
  | RowValue v => Plain (Batch.property_of v property)
  | RowObject props => default (Plain VUndefined) (props !! js property)
  end.

(** [r.property] *)
Definition read_row (r : row) (property : string) : throwing cell :=
  match r with
  | RowValue v => try! x ← read v property; inr (Plain x)
  | RowObject props => inr (default (Plain VUndefined) (props !! js property))
  end.

Definition truthy (c : cell) : bool :=
  match c with
  | Plain v => ToBoolean v
  | DateObject _ => true
  end.

(** [typeof c === "number"] *)
Definition is_number (c : cell) : bool :=
  match c with
  | Plain (VNum _) => true
  | _ => false
  end.

(** The callback of line 40. *)
Definition keep (r : row) : bool :=
  truthy (optional_read r "date") && is_number (optional_read r "close").

(** How the provider settles the lookup: with an array of rows, or with
    [undefined] or [null] in its place ([None]), or by rejecting. *)
Inductive upstream :=
| Fulfils (rows : option (list row))
| Rejects (e : reason).

Section Handler.
Variable unicode_upper : N → N * list N.
Variable unicode_toLowerCase : jsstring → jsstring.
(** The runtime's [Date]: the time value of [new Date(v)] for plain [v]
    ([None] when it is not a date), and [toISOString] of a valid date. *)
Variable Date_of : value → option Z.
Variable toISOString : Z → jsstring.

(** [new Date(c)]: a [Date] is copied. *)
Definition time_of (c : cell) : option Z :=
  match c with
  | DateObject time => time
  | Plain v => Date_of v
  end.

(** [new Date(c).toISOString().slice(0, 10)] *)
Definition iso_day (c : cell) : throwing jsstring :=
  match time_of c with
  | Some t => inr (take 10 (toISOString t))
  | None => inl (RError (js "RangeError") (js "Invalid time value"))
  end.

(** The value [Response.json] is given for a property: a [Date] is
    serialized by its [toJSON]. *)
Definition plain_of (c : cell) : value :=
  match c with
  | Plain v => v
  | DateObject (Some t) => VStr (toISOString t)
  | DateObject None => VNull
  end.

(** The callback of lines 41-44. *)
Definition point (r : row) : throwing value :=
  try! date ← read_row r "date";
  try! day ← iso_day date;
  try! close ← read_row r "close";
  inr (VObject {[ js "date" := VStr day; js "close" := plain_of close ]}).

(** Lines 32-53, with the lookup settled. *)
Definition respond (ticker range : jsstring) (o : upstream) : throwing Response :=
  let attempt : throwing Response :=
    match o with
    | Rejects e => inl e
    | Fulfils rows =>
        try! data ← map_throwing point (List.filter keep (default [] rows));
        inr (Response_json
               (VObject {[ js "ticker" := VStr ticker;
                           js "range" := VStr range;
                           js "data" := VArray data ]}) None)
    end in
  match attempt with
  | inr r => inr r
  | inl e =>
      try! details ← catch_message e;
      inr (Response_json
             (VObject {[ js "error" := VStr (js "Failed to fetch history");
                         js "details" := details ]}) (Some 500%Z))
  end.

(** [GET], lines 15-54: the lookups made, each with its ticker and the days
    looked up (the period of the lookup is these days back from the clock),
    and the response, unless the handler throws.  The provider is given by
    how it settles a lookup. *)
Definition GET (tickerParam rangeParam : option jsstring)
    (historical : jsstring → History.property → upstream)
  : list (jsstring * History.property) * throwing Response :=
  match History.GET unicode_upper unicode_toLowerCase tickerParam rangeParam with
  | History.Responds r => ([], inr r)
  | History.CallsHistorical ticker range days =>
      ([(ticker, days)], respond ticker range (historical ticker days))
  end.

End Handler.

End HistoryData.

(** ** The quote route: [src/app/api/history/route.ts], lines 56-89 *)

Module Quote.

Section Handler.
Variable unicode_upper : N → N * list N.

(** Lines 72-81, with [q] at hand. *)
Definition quote_body (ticker : jsstring) (q : value) : throwing value :=
  try! regularMarketPrice ← read q "regularMarketPrice";
  try! regularMarketChange ← read q "regularMarketChange";
  try! regularMarketChangePercent ← read q "regularMarketChangePercent";
  try! currency ← read q "currency";
  try! shortName ← read q "shortName";
  try! longName ← read q "longName";
  inr (VObject {[ js "ticker" := VStr ticker;
                  js "price" := regularMarketPrice;
                  js "change" := regularMarketChange;
                  js "changePercent" := regularMarketChangePercent;
                  js "currency" := currency;
                  js "name" := shortName ||| longName ||| VStr ticker ]}).

(** [GET], lines 63-89: the lookups made and the response, unless the
    handler throws. *)
Definition GET (tickerParam : option jsstring) (quote : jsstring → Batch.outcome)
  : list jsstring * throwing Response :=
  let ticker := JsString.toUpperCase unicode_upper (param_or tickerParam (js "")) in
  if negb (ToBoolean (VStr ticker)) then
    ([], inr (Response_json
                (VObject {[ js "error" := VStr (js "Missing ticker") ]})
                (Some 400%Z)))
  else
    let attempt : throwing Response :=
      match quote ticker with
      | Batch.Rejects e => inl e
      | Batch.Fulfils q =>
          try! body ← quote_body ticker q;
          inr (Response_json body None)
      end in
    ([ticker],
     match attempt with
     | inr r => inr r
     | inl e =>
         try! details ← catch_message e;
         inr (Response_json
                (VObject {[ js "error" := VStr (js "Failed to fetch quote");
                            js "details" := details ]}) (Some 500%Z))
     end).

End Handler.

End Quote.

(** ** The analyst route: [src/unnamed/part_000] *)

Module Analyst.

Section Handler.
Variable unicode_upper : N → N * list N.
Variable Number_toString : number → jsstring.
(** The message of V8's [TypeError] for calling what is not a function. *)
Variable not_a_function : jsstring.

(** [history?.slice(0, 5)]: arrays and strings have [slice]; on any other
    value that can be read from, [slice] is not a function. *)
Definition slice5 (history : value) : throwing value :=
  match history with
  | VUndefined | VNull => inr VUndefined
  | VArray items => inr (VArray (take 5 items))
  | VStr s => inr (VStr (take 5 s))
  | VBool _ | VNum _ | VObject _ => inl (RError (js "TypeError") not_a_function)
  end.

(** Lines 21-37, with [summary] at hand. *)
Definition analyst_body (ticker : jsstring) (summary : value) : throwing value :=
  let fd := Batch.property_of summary "financialData" ||| VObject ∅ in
  let target property := coalesce (Batch.property_of fd property) VNull in
  try! sliced ←
    slice5 (Batch.property_of
              (Batch.property_of summary "upgradeDowngradeHistory") "history");
  inr (VObject
         {[ js "ticker" := VStr ticker;
            js "targets" :=
              VObject {[ js "mean" := target "targetMeanPrice";
                         js "high" := target "targetHighPrice";
                         js "low" := target "targetLowPrice";
                         js "analystCount" := target "numberOfAnalystOpinions" ]};
            js "consensus" :=
              VObject {[ js "recommendationKey" := target "recommendationKey";
                         js "recommendationMean" := target "recommendationMean" ]};
            js "upgrades" := coalesce sliced (VArray []) ]}).

(** [GET], lines 8-44: the lookups made and the response. *)
Definition GET (tickerParam : option jsstring) (quoteSummary : jsstring → Batch.outcome)
  : list jsstring * Response :=
  let ticker := JsString.toUpperCase unicode_upper (param_or tickerParam (js "")) in
  if negb (ToBoolean (VStr ticker)) then
    ([], Response_json
           (VObject {[ js "error" := VStr (js "Missing ticker") ]}) (Some 400%Z))
  else
    let attempt : throwing Response :=
      match quoteSummary ticker with
      | Batch.Rejects e => inl e
      | Batch.Fulfils summary =>
          try! body ← analyst_body ticker summary;
          inr (Response_json body None)
      end in
    ([ticker],
     match attempt with
     | inr r => r
     | inl e =>
         Response_json
           (VObject {[ js "error" := VStr (js "Failed to fetch analyst data");
                       js "details" :=
                         message_of e ||| VStr (Batch.String_of Number_toString e) ]})
           (Some 500%Z)
     end).

End Handler.

End Analyst.

(** The responses of the single-item routes to a missing ticker. *)
Definition missing_ticker_response : Response :=
  {| status := 400; body := VObject {[ js "error" := VStr (js "Missing ticker") ]} |}.

(** The values [slice] can be called on, and the values whose [slice] is
    never read. *)
Definition sliceable (history : value) : bool :=
  match history with
  | VBool _ | VNum _ | VObject _ => false
  | _ => true
  end.

(** [summary?.upgradeDowngradeHistory?.history] *)
Definition upgrade_history (summary : value) : value :=
  Batch.property_of (Batch.property_of summary "upgradeDowngradeHistory") "history".

(** [summary?.financialData || {}] *)
Definition financial_data (summary : value) : value :=
  Batch.property_of summary "financialData" ||| VObject ∅.

(** ** JSON and string conversion *)

(** [JSON.parse(JSON.stringify(v))], what [res.json()] gives for a body that
    [Response.json] was given as [v]: a property that is [undefined] is left
    out, an array element that is [undefined] becomes [null] (a body is
    never [undefined] itself), and so does a number that is not finite;
    the sign of zero is lost. *)
Fixpoint to_json (v : value) : value :=
  match v with
  | VUndefined => VNull
  | VNull | VBool _ | VStr _ => v
  | VNum (S754_zero _) => VNum (S754_zero false)
  | VNum (S754_finite _ _ _) => v
  | VNum (S754_infinity _) | VNum S754_nan => VNull
  | VArray items => VArray (to_json <$> items)
  | VObject props =>
      VObject (omap (fun x => match x with
                              | VUndefined => None
                              | _ => Some (to_json x)
                              end) props)
  end.

Section ToString.
Variable Number_toString : number → jsstring.

(** [String(v)], also the conversion of a property key and of the argument
    of [new Error].  An array is joined with commas, [undefined] and [null]
    elements as empty strings; an object prints as [[object Object]] unless
    it has a property [toString] of its own, which in plain data is not a
    function. *)
Fixpoint ToString (v : value) : throwing jsstring :=
  match v with
  | VUndefined => inr (js "undefined")
  | VNull => inr (js "null")
  | VBool true => inr (js "true")
  | VBool false => inr (js "false")
  | VNum x => inr (Number_toString x)
  | VStr s => inr s
  | VArray items =>
      let element x :=
        match x with
        | VUndefined | VNull => inr []
        | _ => ToString x
        end in
      (fix join_elements (xs : list value) : throwing jsstring :=
         match xs with
         | [] => inr []
         | [x] => element x
         | x :: xs' =>
             try! s ← element x;
             try! rest ← join_elements xs';
             inr (s ++ js "," ++ rest)
         end) items
  | VObject props =>
      match props !! js "toString" with
      | Some _ =>
          inl (RError (js "TypeError") (js "Cannot convert object to primitive value"))
      | None => inr (js "[object Object]")
      end
  end.

End ToString.

(** ** [src/app/page.tsx]: [loadSnapshot] *)

Module Snapshot.

(** How [fetch] settles: with a response whose body is JSON, or by
    rejecting. *)
Inductive fetched :=
| Receives (res : Response)
| FetchFails (e : reason).

(** [res.ok] *)
Definition ok (res : Response) : bool :=
  (200 <=? status res)%Z && (status res <=? 299)%Z.

(** The object [map]: its own properties, and its prototype when an
    assignment to [__proto__] has replaced [Object.prototype]. *)
Record object := { own : gmap jsstring value; prototype : option value }.

(** [{}] *)
Definition empty : object := {| own := ∅; prototype := None |}.

(** The state [loadSnapshot] leaves behind. *)
Record state := { snapshot : object; error : value; loadingSnapshot : bool }.

Section LoadSnapshot.
Variable Number_toString : number → jsstring.
(** The message of V8's [TypeError] for iterating what is not iterable. *)
Variable not_iterable : jsstring.

(** The rows the loop visits, [json?.data || []] being [data]: the elements
    of an array, the code points of a string. *)
Definition rows_of (data : value) : throwing (list value) :=
  match data ||| VArray [] with
  | VArray rows => inr rows
  | VStr s => inr ((fun cp => VStr (JsString.code_units cp)) <$> JsString.code_points s)
  | _ => inl (RError (js "TypeError") not_iterable)
  end.

(** [map[row.ticker] = row] *)
Definition assign (map : object) (row : value) : throwing object :=
  try! ticker ← read row "ticker";
  try! key ← ToString Number_toString ticker;
  inr (if bool_decide (key = js "__proto__") then
         match row with
         | VObject _ | VArray _ => {| own := own map; prototype := Some row |}
         | _ => map
         end
       else {| own := <[key := row]> (own map); prototype := prototype map |}).

(** The loop of [loadSnapshot]. *)
Fixpoint assign_all (map : object) (rows : list value) : throwing object :=
  match rows with
  | [] => inr map
  | row :: rows' =>
      try! map' ← assign map row;
      assign_all map' rows'
  end.

(** [loadSnapshot], once [fetch] has settled. *)
Definition loadSnapshot (f : fetched) : state :=
  let attempt : throwing object :=
    match f with
    | FetchFails e => inl e
    | Receives res =>
        let json := to_json (body res) in
        if negb (ok res) then
          try! message ←
            ToString Number_toString
              (Batch.property_of json "error" ||| VStr (js "Failed to load snapshot"));
          inl (RError (js "Error") message)
        else
          try! rows ← rows_of (Batch.property_of json "data");
          assign_all empty rows
    end in
  match attempt with
  | inr map => {| snapshot := map; error := VStr (js ""); loadingSnapshot := false |}
  | inl e =>
      {| snapshot := empty;
         error := message_of e ||| VStr (js "Snapshot error");
         loadingSnapshot := false |}
  end.

End LoadSnapshot.

End Snapshot.

(** ** Tactics for the examples *)

(** Discharges [settles_all] for a concrete environment. *)
Ltac settles_all_tac :=
  let i := fresh "i" in
  let Hi := fresh "Hi" in
  intros i Hi; vm_compute in Hi;
  repeat (destruct i as [|i]; [by eexists|]); lia.

(** Decides a closed membership goal, or its negation, by evaluation. *)
Ltac by_bool_decide :=
  lazymatch goal with
  | |- ¬ _ =>
      let H := fresh in
      intros H; apply (bool_decide_pack _) in H; by vm_compute in H
  | |- _ => apply (bool_decide_unpack _); by vm_compute
  end.

(** * Properties *)

(** ** Strings *)

Section StringFacts.
Import JsString.

Lemma split_nonempty sep s : split sep s ≠ [].
Proof.
  destruct s as [|u t]; simpl; [done|].
  destruct (u =? sep); [done|]. by destruct (split sep t).
Qed.

(** Joining the pieces with the separator gives the string back. *)
Lemma split_join sep s :
  foldr (fun piece acc =>
           match acc with
           | None => Some piece
           | Some rest => Some (piece ++ sep :: rest)
           end) None (split sep s) = Some s.
Proof.
  induction s as [|u t IH]; simpl; [done|].
  destruct (N.eqb_spec u sep) as [->|Hne]; simpl.
  - by rewrite IH.
  - destruct (split sep t) as [|piece pieces] eqn:E.
    + by destruct (split_nonempty sep t).
    + simpl in *. destruct (foldr _ None pieces); by simplify_eq.
Qed.

(** No piece contains the separator. *)
Lemma split_no_sep sep s piece : piece ∈ split sep s → sep ∉ piece.
Proof.
  revert piece. induction s as [|u t IH]; simpl; intros piece.
  - rewrite list_elem_of_singleton. intros ->. apply not_elem_of_nil.
  - destruct (N.eqb_spec u sep) as [->|Hne].
    + rewrite elem_of_cons. intros [->|Hin]; [apply not_elem_of_nil|by apply IH].
    + destruct (split sep t) as [|piece' pieces] eqn:E.
      * rewrite list_elem_of_singleton. intros ->.
        rewrite list_elem_of_singleton. congruence.
      * rewrite elem_of_cons. intros [->|Hin].
        -- rewrite elem_of_cons. intros [?|?]; [congruence|].
           by eapply IH; [left|].
        -- apply IH. by right.
Qed.

(** [trimStart] removes a prefix of white space, the longest one. *)
Lemma trimStart_spec s :
  ∃ prefix, s = prefix ++ trimStart s
            ∧ Forall (fun u => is_white_space u = true) prefix
            ∧ head (is_white_space <$> trimStart s) ≠ Some true.
Proof.
  induction s as [|u t (prefix & Heq & Hws & Hhead)]; simpl.
  - by exists [].
  - destruct (is_white_space u) eqn:E.
    + exists (u :: prefix). split_and!; [by rewrite /= -Heq|by constructor|done].
    + exists []. split_and!; [done|constructor|]. simpl. by rewrite E.
Qed.

Lemma trimStart_nil_iff s :
  trimStart s = [] ↔ Forall (fun u => is_white_space u = true) s.
Proof.
  induction s as [|u t IH]; simpl; [done|].
  destruct (is_white_space u) eqn:E.
  - rewrite IH. split; [by constructor|by inversion 1].
  - split; [done|]. inversion 1; congruence.
Qed.

(** A piece trims to the empty string exactly when it is white space
    throughout. *)
Lemma trim_nil_iff s :
  trim s = [] ↔ Forall (fun u => is_white_space u = true) s.
Proof.
  unfold trim, trimEnd.
  destruct (trimStart_spec s) as (prefix & Heq & Hws & _).
  split.
  - intros H. apply (f_equal reverse) in H.
    rewrite reverse_involutive reverse_nil in H.
    apply trimStart_nil_iff in H.
    rewrite Heq. apply Forall_app. split; [done|].
    apply Forall_reverse in H. by rewrite reverse_involutive in H.
  - intros H. apply trimStart_nil_iff in H. by rewrite H.
Qed.

(** [trim] removes white space at both ends and nothing else, and what is
    left neither starts nor ends with white space. *)
Lemma trim_spec s :
  ∃ prefix suffix,
    s = prefix ++ trim s ++ suffix
    ∧ Forall (fun u => is_white_space u = true) prefix
    ∧ Forall (fun u => is_white_space u = true) suffix
    ∧ head (is_white_space <$> trim s) ≠ Some true
    ∧ last (is_white_space <$> trim s) ≠ Some true.
Proof.
  unfold trim, trimEnd.
  destruct (trimStart_spec s) as (prefix & Hs & Hprefix & Hhead).
  destruct (trimStart_spec (reverse (trimStart s)))
    as (reversed_suffix & Hrev & Hsuffix & Hlast).
  set (middle := trimStart (reverse (trimStart s))) in *.
  assert (trimStart s = reverse middle ++ reverse reversed_suffix) as Hmid.
  { by rewrite -reverse_app -Hrev reverse_involutive. }
  exists prefix, (reverse reversed_suffix). split_and!.
  - by rewrite -Hmid.
  - done.
  - by apply Forall_reverse.
  - rewrite Hmid in Hhead. destruct (reverse middle); [done|]. exact Hhead.
  - rewrite -(reverse_involutive (_ <$> reverse middle)) last_reverse.
    by rewrite -fmap_reverse reverse_involutive.
Qed.

Lemma code_points_nonempty s : s ≠ [] → code_points s ≠ [].
Proof.
  destruct s as [|u [|v t]]; simpl; [done|done|].
  by destruct (is_lead u && is_trail v).
Qed.

Lemma code_units_nonempty cp : code_units cp ≠ [].
Proof. unfold code_units. by destruct (cp <? 0x10000). Qed.

Lemma upper_code_point_nonempty up cp : upper_code_point up cp ≠ [].
Proof.
  unfold upper_code_point. destruct (is_ascii cp); [done|].
  by destruct (up cp).
Qed.

Lemma concat_fmap_nonempty {A B} (f : A → list B) (l : list A) :
  (∀ a, f a ≠ []) → l ≠ [] → concat (f <$> l) ≠ [].
Proof.
  intros Hf. destruct l as [|a l]; [done|]. intros _. simpl.
  specialize (Hf a). destruct (f a); [done|]. done.
Qed.

(** Upper-casing never empties a string, and the empty string stays
    empty. *)
Lemma toUpperCase_nil_iff up s : toUpperCase up s = [] ↔ s = [].
Proof.
  split; [|by intros ->].
  intros H. destruct (decide (s = [])) as [|Hne]; [done|]. exfalso.
  revert H. unfold toUpperCase.
  apply concat_fmap_nonempty; [apply code_units_nonempty|].
  apply concat_fmap_nonempty; [apply upper_code_point_nonempty|].
  by apply code_points_nonempty.
Qed.

End StringFacts.

Example split_example :
  JsString.split 0x2C (js "a,,b") = [js "a"; js ""; js "b"].
Proof. reflexivity. Qed.

Example trim_example :
  JsString.trim (js "  aapl ") = js "aapl".
Proof. reflexivity. Qed.

(** ** The fan-in *)

Section FanIn.
Import Batch.

Lemma all_settled_Some slots results :
  all_settled slots = Some results ↔ slots = Some <$> results.
Proof.
  revert results.
  induction slots as [|[r|] slots IH]; intros results; simpl.
  - split; [by intros [= <-]|by destruct results].
  - split.
    + destruct (all_settled slots) as [rs|]; [|done].
      intros [= <-]. simpl. f_equal. by apply IH.
    + destruct results as [|r' rs]; [done|]. intros [= -> Hrs].
      apply IH in Hrs. by rewrite Hrs.
  - split; [done|by destruct results].
Qed.

Lemma all_settled_None slots :
  all_settled slots = None ↔ ∃ i, slots !! i = Some None.
Proof.
  induction slots as [|[r|] slots IH]; simpl.
  - split; [done|]. by intros [i ?].
  - destruct (all_settled slots) as [rs|]; simpl.
    + split; [done|]. intros [[|i] Hi]; [done|].
      simpl in Hi. destruct IH as [_ IH]. by discriminate IH; eauto.
    + split; [|done]. intros _. destruct IH as [[i Hi] _]; [done|].
      by exists (S i).
  - split; [|done]. intros _. by exists 0%nat.
Qed.

Lemma all_settled_length slots results :
  all_settled slots = Some results → length results = length slots.
Proof. intros ->%all_settled_Some. by rewrite length_fmap. Qed.

Lemma final_slot_nil tickers i slot : final_slot tickers [] i slot = slot.
Proof. destruct slot; [done|]. simpl. by destruct (tickers !! i). Qed.

Lemma final_slot_cons_ne tickers i o env j slot :
  i ≠ j →
  final_slot tickers ((i, o) :: env) j slot = final_slot tickers env j slot.
Proof.
  intros Hne. destruct slot; [done|]. simpl.
  by destruct (Nat.eqb_spec i j).
Qed.

(** What [Promise.allSettled] resolves to does not depend on the order of
    the settlements: slot [i] holds the result of lookup [i]. *)
Lemma await_all_results tickers env slots :
  (length slots ≤ length tickers)%nat →
  (await_all tickers slots env).2
  = all_settled (imap (final_slot tickers env) slots).
Proof.
  revert slots. induction env as [|[i o] env IH]; intros slots Hlen.
  - assert (imap (final_slot tickers []) slots = slots) as ->.
    { apply list_eq; intros j. rewrite list_lookup_imap.
      destruct (slots !! j); simpl; [|done]. by rewrite final_slot_nil. }
    simpl. by destruct (all_settled slots).
  - simpl. destruct (all_settled slots) as [results|] eqn:Hall.
    { simpl. rewrite -Hall. f_equal. apply list_eq; intros j.
      rewrite list_lookup_imap. apply all_settled_Some in Hall as ->.
      rewrite list_lookup_fmap. by destruct (results !! j). }
    destruct (slots !! i) as [[r|]|] eqn:Hi.
    + rewrite IH; [done|]. f_equal. apply list_eq; intros j.
      rewrite !list_lookup_imap.
      destruct (decide (i = j)) as [<-|Hne].
      * by rewrite Hi.
      * destruct (slots !! j); simpl; [|done].
        by rewrite final_slot_cons_ne.
    + destruct (tickers !! i) as [ticker|] eqn:Ht.
      * destruct (await_all tickers _ env) as [trace results] eqn:Hrec.
        simpl. change results with (trace, results).2. rewrite -Hrec.
        rewrite IH; [by rewrite length_insert|].
        f_equal. apply list_eq; intros j. rewrite !list_lookup_imap.
        destruct (decide (i = j)) as [<-|Hne].
        -- rewrite list_lookup_insert_eq; [by eapply lookup_lt_Some|].
           rewrite Hi. simpl. by rewrite Ht Nat.eqb_refl.
        -- rewrite list_lookup_insert_ne; [done|].
           destruct (slots !! j); simpl; [|done].
           by rewrite final_slot_cons_ne.
      * apply lookup_lt_Some in Hi. apply lookup_ge_None in Ht. lia.
    + rewrite IH; [done|]. f_equal. apply list_eq; intros j.
      rewrite !list_lookup_imap.
      destruct (decide (i = j)) as [<-|Hne].
      * by rewrite Hi.
      * destruct (slots !! j); simpl; [|done].
        by rewrite final_slot_cons_ne.
Qed.

(** While the handler is suspended, nothing but settlements happens. *)
Lemma await_all_trace_Settle tickers env slots :
  Forall (fun ev => is_Settle ev = true) (await_all tickers slots env).1.
Proof.
  revert slots. induction env as [|[i o] env IH]; intros slots; simpl.
  - by destruct (all_settled slots).
  - destruct (all_settled slots); [done|].
    destruct (slots !! i) as [[r|]|]; [apply IH| |apply IH].
    destruct (tickers !! i) as [ticker|]; [|apply IH].
    specialize (IH (<[i:=Some (quote_task ticker o)]> slots)).
    destruct (await_all tickers _ env). by constructor.
Qed.

(** A pending lookup that the environment settles is recorded, with its
    own result, whatever the other lookups do. *)
Lemma await_all_trace_records tickers env slots i ticker o :
  slots !! i = Some None →
  tickers !! i = Some ticker →
  first_outcome env i = Some o →
  Settle i (quote_task ticker o) ∈ (await_all tickers slots env).1.
Proof.
  revert slots. induction env as [|[j o'] env IH]; intros slots Hi Ht Ho.
  - done.
  - simpl. destruct (all_settled slots) as [results|] eqn:Hall.
    { apply all_settled_Some in Hall as ->.
      rewrite list_lookup_fmap in Hi. by destruct (results !! i). }
    simpl in Ho. destruct (Nat.eqb_spec j i) as [->|Hne].
    + injection Ho as ->. rewrite Hi Ht.
      destruct (await_all tickers _ env). simpl. by left.
    + destruct (slots !! j) as [[r|]|] eqn:Hj; [by apply IH| |by apply IH].
      destruct (tickers !! j) as [ticker'|]; [|by apply IH].
      specialize (IH (<[j:=Some (quote_task ticker' o')]> slots)).
      destruct (await_all tickers _ env). simpl. right. apply IH; [|done..].
      by rewrite list_lookup_insert_ne.
Qed.

(** A settlement is recorded only for a lookup that was pending, and at
    most once for each. *)
Lemma await_all_trace_pending tickers env slots i r :
  Settle i r ∈ (await_all tickers slots env).1 → slots !! i = Some None.
Proof.
  revert slots. induction env as [|[j o] env IH]; intros slots; simpl.
  - destruct (all_settled slots); by intros ?%elem_of_nil.
  - destruct (all_settled slots); [by intros ?%elem_of_nil|].
    destruct (slots !! j) as [[r'|]|] eqn:Hj; [apply IH| |apply IH].
    destruct (tickers !! j) as [ticker|]; [|apply IH].
    specialize (IH (<[j:=Some (quote_task ticker o)]> slots)).
    destruct (await_all tickers _ env). simpl.
    intros [[= -> ->]|Hin]%elem_of_cons; [done|].
    apply IH in Hin. destruct (decide (j = i)) as [->|Hne].
    + rewrite list_lookup_insert_eq in Hin; [by eapply lookup_lt_Some|done].
    + by rewrite list_lookup_insert_ne in Hin.
Qed.

End FanIn.

(** ** The handler *)

Section HandlerFacts.
Import Batch.
Variable up : N → N * list N.
Variable nts : number → jsstring.

Lemma GET_missing tickersParam env :
  tickers_of up tickersParam = [] →
  GET up nts tickersParam env = ([Respond missing_tickers], Some missing_tickers).
Proof. unfold GET, tickers_of. by intros ->. Qed.

Lemma pending_slots_length (tickers : list jsstring) :
  length ((fun _ => @None settled) <$> tickers) = length tickers.
Proof. by rewrite length_fmap. Qed.

Lemma final_slots_lookup tickers env i ticker :
  tickers !! i = Some ticker →
  imap (final_slot tickers env) ((fun _ => None) <$> tickers) !! i
  = Some (quote_task ticker <$> first_outcome env i).
Proof.
  intros Ht. rewrite list_lookup_imap list_lookup_fmap Ht /= Ht.
  by destruct (first_outcome env i).
Qed.

(** The handler stays suspended exactly as long as a lookup is unsettled. *)
Lemma await_all_suspended tickers env :
  (await_all tickers ((fun _ => None) <$> tickers) env).2 = None
  ↔ ¬ settles_all (length tickers) env.
Proof.
  rewrite await_all_results; [by rewrite pending_slots_length|].
  rewrite all_settled_None. split.
  - intros [i Hi] Hall.
    destruct (tickers !! i) as [ticker|] eqn:Ht.
    + rewrite (final_slots_lookup _ _ _ _ Ht) in Hi.
      destruct (Hall i) as [o Ho]; [by eapply lookup_lt_Some|].
      by rewrite Ho in Hi.
    + by rewrite list_lookup_imap list_lookup_fmap Ht in Hi.
  - intros Hnot.
    destruct (decide (Exists (fun i => first_outcome env i = None)
                        (seq 0 (length tickers)))) as [Hex|Hnex].
    + apply Exists_exists in Hex as (i & [_ Hi]%elem_of_seq & Hnone).
      exists i. destruct (lookup_lt_is_Some_2 tickers i) as [ticker Ht]; [lia|].
      by rewrite (final_slots_lookup _ _ _ _ Ht) Hnone.
    + destruct Hnot. intros i Hi.
      apply not_Exists_Forall in Hnex; [|intros ?; apply _].
      rewrite Forall_forall in Hnex.
      specialize (Hnex i). simpl in Hnex.
      destruct (first_outcome env i); [done|].
      destruct Hnex; [apply elem_of_seq; lia|done].
Qed.

Lemma await_all_complete tickers env :
  settles_all (length tickers) env →
  ∃ settles results,
    await_all tickers ((fun _ => None) <$> tickers) env = (settles, Some results)
    ∧ Forall (fun ev => is_Settle ev = true) settles
    ∧ length results = length tickers
    ∧ ∀ i ticker o,
        tickers !! i = Some ticker → first_outcome env i = Some o →
        results !! i = Some (quote_task ticker o)
        ∧ Settle i (quote_task ticker o) ∈ settles.
Proof.
  intros Hall.
  pose proof (await_all_trace_Settle tickers env ((fun _ => None) <$> tickers))
    as Htrace.
  pose proof (await_all_trace_records tickers env ((fun _ => None) <$> tickers))
    as Hrec.
  pose proof (await_all_results tickers env ((fun _ => None) <$> tickers))
    as Hres.
  destruct (await_all tickers _ env) as [settles [results|]] eqn:Hrun.
  - exists settles, results. simpl in *.
    rewrite pending_slots_length in Hres. specialize (Hres (le_n _)).
    symmetry in Hres. pose proof Hres as Hlen%all_settled_length.
    rewrite length_imap length_fmap in Hlen.
    split_and!; [done..|]. intros i ticker o Ht Ho. split.
    + apply all_settled_Some in Hres.
      apply (f_equal (fun l => l !! i)) in Hres.
      rewrite (final_slots_lookup _ _ _ _ Ht) Ho list_lookup_fmap /= in Hres.
      destruct (results !! i); by simplify_eq/=.
    + apply Hrec; [|done..]. by rewrite list_lookup_fmap Ht.
  - exfalso. eapply (proj1 (await_all_suspended tickers env)); [|done].
    by rewrite Hrun.
Qed.

Lemma filter_all {A} (P : A → bool) (l : list A) :
  Forall (fun x => P x = true) l → List.filter P l = l.
Proof. induction 1 as [|x l Hx _ IH]; simpl; [done|]. by rewrite Hx IH. Qed.

Lemma filter_none {A} (P : A → bool) (l : list A) :
  Forall (fun x => P x = false) l → List.filter P l = [].
Proof. induction 1 as [|x l Hx _ IH]; simpl; [done|]. by rewrite Hx IH. Qed.

Lemma calls_are_Calls (tickers : list jsstring) :
  Forall (fun ev => is_Call ev = true) (imap Call tickers).
Proof.
  apply Forall_forall. by intros ev (i & t & -> & _)%elem_of_lookup_imap.
Qed.

Lemma Settles_not_Calls (trace : list event) :
  Forall (fun ev => is_Settle ev = true) trace →
  Forall (fun ev => is_Call ev = false) trace.
Proof. intros H. eapply Forall_impl; [exact H|]. by intros [| |]. Qed.

(** The run of a request with symbols, when every lookup settles: all the
    calls, then the settlements, then the response. *)
Lemma GET_responds tickersParam env :
  tickers_of up tickersParam ≠ [] →
  settles_all (length (tickers_of up tickersParam)) env →
  ∃ settles results,
    GET up nts tickersParam env
    = (imap Call (tickers_of up tickersParam) ++ settles
         ++ [Respond (ok_response (data_of nts (tickers_of up tickersParam) results))],
       Some (ok_response (data_of nts (tickers_of up tickersParam) results)))
    ∧ Forall (fun ev => is_Settle ev = true) settles
    ∧ length results = length (tickers_of up tickersParam)
    ∧ ∀ i ticker o,
        tickers_of up tickersParam !! i = Some ticker →
        first_outcome env i = Some o →
        results !! i = Some (quote_task ticker o)
        ∧ Settle i (quote_task ticker o) ∈ settles.
Proof.
  intros Hne Hall.
  destruct (await_all_complete _ _ Hall) as (settles & results & Hrun & Hrest).
  exists settles, results. split; [|done].
  unfold GET. fold (tickers_of up tickersParam).
  destruct (tickers_of up tickersParam) as [|t ts] eqn:Hts; [done|].
  cbn [length Nat.eqb]. by rewrite Hrun.
Qed.

(** The run of a request with symbols, in one equation. *)
Lemma GET_run tickersParam env :
  tickers_of up tickersParam ≠ [] →
  GET up nts tickersParam env
  = let tickers := tickers_of up tickersParam in
    let run := await_all tickers ((fun _ => None) <$> tickers) env in
    let response := ok_response ∘ data_of nts tickers <$> run.2 in
    (imap Call tickers ++ run.1 ++ from_option (fun r => [Respond r]) [] response,
     response).
Proof.
  intros Hne. unfold GET. fold (tickers_of up tickersParam).
  destruct (tickers_of up tickersParam) as [|t ts] eqn:Hts; [done|].
  cbn [length Nat.eqb].
  destruct (await_all _ _ env) as [settles [results|]]; simpl; [done|].
  by rewrite app_nil_r.
Qed.

Lemma data_of_lookup tickers results i ticker r :
  tickers !! i = Some ticker → results !! i = Some r →
  data_of nts tickers results !! i = Some (result_row nts (VStr ticker) r).
Proof.
  intros Ht Hr. unfold data_of. by rewrite list_lookup_imap Hr /= Ht.
Qed.

Lemma data_of_length tickers results :
  length (data_of nts tickers results) = length results.
Proof. apply length_imap. Qed.

(** The calls a run makes are those of the fan-out, one for each
    position, in order. *)
Lemma GET_calls tickersParam env :
  tickers_of up tickersParam ≠ [] →
  List.filter is_Call (GET up nts tickersParam env).1
  = imap Call (tickers_of up tickersParam).
Proof.
  intros Hne. rewrite GET_run; [done|]. cbn zeta. cbn [fst].
  rewrite !List.filter_app.
  rewrite (filter_all _ _ (calls_are_Calls _)).
  rewrite (filter_none _ _
             (Settles_not_Calls _ (await_all_trace_Settle _ _ _))).
  destruct (_ <$> _); simpl; by rewrite app_nil_r.
Qed.

(** The response of a run in which every lookup settles: position [i]
    holds the row of lookup [i]. *)
Lemma GET_data tickersParam env :
  tickers_of up tickersParam ≠ [] →
  settles_all (length (tickers_of up tickersParam)) env →
  ∃ data,
    (GET up nts tickersParam env).2 = Some (ok_response data)
    ∧ length data = length (tickers_of up tickersParam)
    ∧ ∀ i ticker o,
        tickers_of up tickersParam !! i = Some ticker →
        first_outcome env i = Some o →
        data !! i = Some (result_row nts (VStr ticker) (quote_task ticker o)).
Proof.
  intros Hne Hall.
  destruct (GET_responds _ _ Hne Hall) as (settles & results & -> & _ & Hlen & Hres).
  eexists. split_and!; [done|by rewrite data_of_length|].
  intros i ticker o Ht Ho. apply data_of_lookup; [done|].
  by apply Hres.
Qed.

(** ** Rows *)

Lemma read_property_of q property :
  nullish q = false → read q property = inr (property_of q property).
Proof. by destruct q. Qed.

Lemma quote_task_fulfilled ticker q :
  nullish q = false →
  quote_task ticker (Fulfils q)
  = Fulfilled {[ js "ticker" := VStr ticker;
                 js "name" := property_of q "shortName"
                              ||| property_of q "longName" ||| VStr ticker;
                 js "price" := property_of q "regularMarketPrice";
                 js "changePercent" := property_of q "regularMarketChangePercent";
                 js "currency" := property_of q "currency" ]}.
Proof.
  intros Hq. unfold quote_task, quote_row.
  by rewrite !read_property_of.
Qed.

Lemma quote_task_nullish ticker q :
  nullish q = true →
  ∃ message, message ≠ []
    ∧ quote_task ticker (Fulfils q)
      = Rejected (RError (js "TypeError") message).
Proof. destruct q; intros [=]; eexists; (split; [|reflexivity]); by vm_compute. Qed.

(** Every row is tagged and carries the symbol of its position. *)
Lemma row_tagged (ticker : jsstring) (o : outcome) :
  ∃ row ok,
    result_row nts (VStr ticker) (quote_task ticker o) = VObject row
    ∧ row !! js "ticker" = Some (VStr ticker)
    ∧ row !! js "ok" = Some (VBool ok)
    ∧ (ok = true ↔ ∃ v, quote_task ticker o = Fulfilled v).
Proof.
  destruct o as [q|e].
  - destruct (nullish q) eqn:Hq.
    + destruct (quote_task_nullish ticker q Hq) as (message & _ & ->).
      eexists _, false. split_and!; [done..|]. split; [done|by intros [? ?]].
    + rewrite quote_task_fulfilled; [done|].
      eexists _, true. split_and!; [done..|]. split; [by eexists|done].
  - eexists _, false. split_and!; [done..|]. split; [done|by intros [? ?]].
Qed.

(** The response depends on the outcome of each lookup, and on nothing
    else about the environment: not on the order of the settlements. *)
Lemma GET_order_irrelevant tickersParam env env' :
  (∀ i, (i < length (tickers_of up tickersParam))%nat →
        first_outcome env' i = first_outcome env i) →
  (GET up nts tickersParam env').2 = (GET up nts tickersParam env).2.
Proof.
  intros Hsame.
  destruct (decide (tickers_of up tickersParam = [])) as [Hnil|Hne].
  { by rewrite !GET_missing. }
  rewrite !GET_run; [done..|]. cbn zeta. cbn [snd].
  rewrite !await_all_results; [by rewrite pending_slots_length..|].
  do 2 f_equal. apply list_eq; intros i. rewrite !list_lookup_imap.
  destruct (_ !! i) as [slot|] eqn:Hi; [|done]. simpl. f_equal.
  apply lookup_lt_Some in Hi. rewrite pending_slots_length in Hi.
  destruct slot; [done|]. simpl. by rewrite Hsame.
Qed.

(** The row of a lookup fulfilled with a payload that can be read from. *)
Lemma GET_fulfilled_row tickersParam env i ticker q :
  tickers_of up tickersParam !! i = Some ticker →
  settles_all (length (tickers_of up tickersParam)) env →
  first_outcome env i = Some (Fulfils q) →
  nullish q = false →
  ∃ data,
    (GET up nts tickersParam env).2 = Some (ok_response data)
    ∧ data !! i
      = Some (VObject
                ({[ js "ticker" := VStr ticker;
                    js "name" := property_of q "shortName"
                                 ||| property_of q "longName" ||| VStr ticker;
                    js "price" := property_of q "regularMarketPrice";
                    js "changePercent" := property_of q "regularMarketChangePercent";
                    js "currency" := property_of q "currency" ]}
                 ∪ {[ js "ok" := VBool true ]})).
Proof.
  intros Ht Hall Ho Hq.
  assert (tickers_of up tickersParam ≠ []) as Hne.
  { intros Hnil. by rewrite Hnil in Ht. }
  destruct (GET_data _ _ Hne Hall) as (data & Hget & _ & Hrows).
  exists data. split; [done|].
  by rewrite (Hrows _ _ _ Ht Ho) quote_task_fulfilled.
Qed.

End HandlerFacts.

(** ** The parser *)

Section ParserFacts.
Import JsString Batch.
Variable up : N → N * list N.

Lemma ToBoolean_VStr s : ToBoolean (VStr s) = negb (bool_decide (s = [])).
Proof. by destruct s. Qed.

Lemma parse_tickers_refines raw : parse_tickers up raw = spec_parse up raw.
Proof.
  unfold parse_tickers, spec_parse.
  induction (split 0x2C raw) as [|piece pieces IH]; [done|].
  cbn [fmap list_fmap List.filter]. rewrite -/(fmap _ pieces) IH.
  rewrite ToBoolean_VStr.
  rewrite (bool_decide_ext _ _ (toUpperCase_nil_iff up (trim piece))).
  by destruct (bool_decide (trim piece = [])).
Qed.

Lemma split_elem sep s piece u : piece ∈ split sep s → u ∈ piece → u ∈ s.
Proof.
  revert piece. induction s as [|v t IH]; simpl; intros piece.
  - by intros ->%list_elem_of_singleton.
  - destruct (v =? sep).
    + intros [->|Hin]%elem_of_cons; [by intros ?%elem_of_nil|].
      right. by eapply IH.
    + destruct (split sep t) as [|piece' pieces] eqn:E.
      * intros ->%list_elem_of_singleton. intros ->%list_elem_of_singleton.
        by left.
      * intros [->|Hin]%elem_of_cons.
        -- intros [->|Hu]%elem_of_cons; [by left|].
           right. eapply IH; [by left|done].
        -- intros Hu. right. eapply IH; [by right|done].
Qed.

(** A string of commas and white space has no symbols. *)
Lemma parse_tickers_blank raw :
  Forall (fun u => u = 0x2C ∨ is_white_space u = true) raw →
  parse_tickers up raw = [].
Proof.
  intros Hraw. unfold parse_tickers. apply filter_none.
  apply Forall_fmap, Forall_forall. intros piece Hpiece. simpl.
  assert (trim piece = []) as ->; [|done].
  apply trim_nil_iff, Forall_forall. intros u Hu.
  rewrite Forall_forall in Hraw.
  destruct (Hraw u) as [->|Hws]; [by eapply split_elem| |done].
  by destruct (split_no_sep _ _ _ Hpiece).
Qed.

End ParserFacts.

(** ** The history route *)

Section HistoryFacts.
Import History.

Lemma RANGE_TO_DAYS_listed range :
  range ∈ ranges ↔ is_Some (RANGE_TO_DAYS !! range).
Proof.
  unfold ranges, RANGE_TO_DAYS. cbn [fmap list_fmap].
  rewrite !elem_of_cons elem_of_nil.
  rewrite -elem_of_dom !dom_insert dom_empty.
  rewrite !elem_of_union !elem_of_singleton elem_of_empty. tauto.
Qed.

Lemma RANGE_TO_DAYS_truthy range days :
  RANGE_TO_DAYS !! range = Some days → (days =? 0)%Z = false.
Proof.
  unfold RANGE_TO_DAYS.
  rewrite !lookup_insert_Some lookup_empty. intros Hdays.
  repeat (destruct Hdays as [[_ <-]|[_ Hdays]]; [done|]). done.
Qed.

Lemma GET_unfold up low tickerParam rangeParam :
  GET up low tickerParam rangeParam
  = if negb (ToBoolean (VStr (ticker_of up tickerParam)))
    then Responds missing_ticker
    else if negb (truthy (RANGE_TO_DAYS_at (range_of low rangeParam)))
         then Responds invalid_range
         else CallsHistorical (ticker_of up tickerParam)
                (range_of low rangeParam)
                (RANGE_TO_DAYS_at (range_of low rangeParam)).
Proof. done. Qed.

End HistoryFacts.

(** ** Examples *)

(** The lookups of ["AAPL,ZZZZINVALID"] settle in the reverse order, the
    second one rejected: the rows are in the order of the request. *)
Example GET_example up nts :
  Batch.GET up nts (Some (js "AAPL,ZZZZINVALID"))
    [ (1%nat, Batch.Rejects (RError (js "Error") (js "Not Found")));
      (0%nat, Batch.Fulfils
                (VObject {[ js "shortName" := VStr (js "Apple Inc.");
                            js "regularMarketPrice" := VNum (S754_finite false 1 7);
                            js "currency" := VStr (js "USD") ]})) ]
  = ([ Batch.Call 0 (js "AAPL");
       Batch.Call 1 (js "ZZZZINVALID");
       Batch.Settle 1 (Batch.Rejected (RError (js "Error") (js "Not Found")));
       Batch.Settle 0
         (Batch.Fulfilled
            {[ js "ticker" := VStr (js "AAPL");
               js "name" := VStr (js "Apple Inc.");
               js "price" := VNum (S754_finite false 1 7);
               js "changePercent" := VUndefined;
               js "currency" := VStr (js "USD") ]});
       Batch.Respond
         (Batch.ok_response
            [ VObject {[ js "ok" := VBool true;
                         js "ticker" := VStr (js "AAPL");
                         js "name" := VStr (js "Apple Inc.");
                         js "price" := VNum (S754_finite false 1 7);
                         js "changePercent" := VUndefined;
                         js "currency" := VStr (js "USD") ]};
              VObject {[ js "ok" := VBool false;
                         js "ticker" := VStr (js "ZZZZINVALID");
                         js "error" := VStr (js "Not Found") ]} ]) ],
     Some
       (Batch.ok_response
          [ VObject {[ js "ok" := VBool true;
                       js "ticker" := VStr (js "AAPL");
                       js "name" := VStr (js "Apple Inc.");
                       js "price" := VNum (S754_finite false 1 7);
                       js "changePercent" := VUndefined;
                       js "currency" := VStr (js "USD") ]};
            VObject {[ js "ok" := VBool false;
                       js "ticker" := VStr (js "ZZZZINVALID");
                       js "error" := VStr (js "Not Found") ]} ])).
Proof. by vm_compute. Qed.

(** While a lookup is unsettled there is no response. *)
Example GET_suspended_example up nts :
  Batch.GET up nts (Some (js "aapl,msft"))
    [ (0%nat, Batch.Rejects (RStr (js "boom"))) ]
  = ([ Batch.Call 0 (js "AAPL");
       Batch.Call 1 (js "MSFT");
       Batch.Settle 0 (Batch.Rejected (RStr (js "boom"))) ],
     None).
Proof. by vm_compute. Qed.

(** Thrown primitives and errors without a message are reported by their
    string form. *)
Example error_text_examples nts :
  Batch.result_row nts (VStr (js "X")) (Batch.Rejected (RStr (js "boom")))
  = VObject {[ js "ok" := VBool false; js "ticker" := VStr (js "X");
               js "error" := VStr (js "boom") ]}
  ∧ Batch.result_row nts (VStr (js "X")) (Batch.Rejected RUndefined)
    = VObject {[ js "ok" := VBool false; js "ticker" := VStr (js "X");
                 js "error" := VStr (js "undefined") ]}
  ∧ Batch.result_row nts (VStr (js "X"))
      (Batch.Rejected (RError (js "HTTPError") (js "")))
    = VObject {[ js "ok" := VBool false; js "ticker" := VStr (js "X");
                 js "error" := VStr (js "HTTPError") ]}.
Proof. by split_and!. Qed.

(** * The claims *)

Import Batch.

(** C1: for a request that parses to N >= 1 symbols and whose lookups all
    settle, in whatever order, the response carries N rows; the row at
    position i is an object with the tag [ok] and with [ticker] equal to the
    parsed symbol at position i, for a fulfilled lookup and for a rejected
    one alike; and any other order of the same outcomes gives the same
    response. *)
Theorem C1_rows_follow_input_order
    (up : N → N * list N) (nts : number → jsstring)
    (tickersParam : option jsstring) (env : list (nat * outcome)) :
  tickers_of up tickersParam ≠ [] →
  settles_all (length (tickers_of up tickersParam)) env →
  ∃ data,
    (GET up nts tickersParam env).2 = Some (ok_response data)
    ∧ length data = length (tickers_of up tickersParam)
    ∧ (∀ i ticker,
         tickers_of up tickersParam !! i = Some ticker →
         ∃ row ok,
           data !! i = Some (VObject row)
           ∧ row !! js "ticker" = Some (VStr ticker)
           ∧ row !! js "ok" = Some (VBool ok))
    ∧ (∀ env',
         (∀ i, (i < length (tickers_of up tickersParam))%nat →
               first_outcome env' i = first_outcome env i) →
         (GET up nts tickersParam env').2 = Some (ok_response data)).
Proof.
  intros Hne Hall.
  destruct (GET_data up nts _ _ Hne Hall) as (data & Hget & Hlen & Hrows).
  exists data. split_and!; [done..| |].
  - intros i ticker Ht.
    destruct (Hall i) as [o Ho]; [by eapply lookup_lt_Some|].
    destruct (row_tagged nts ticker o) as (row & ok & Hrow & Hticker & Hok & _).
    exists row, ok. by rewrite (Hrows _ _ _ Ht Ho) Hrow.
  - intros env' Hsame. by rewrite (GET_order_irrelevant up nts _ env env').
Qed.

Lemma C1_rows_follow_input_order_witness :
  ∃ data,
    (GET (fun cp => (cp, [])) (fun _ => js "NaN") (Some (js "aapl, msft"))
       [ (1%nat, Rejects (RError (js "Error") (js "Not Found")));
         (0%nat, Fulfils (VObject {[ js "shortName" := VStr (js "Apple Inc.") ]})) ]).2
    = Some (ok_response data)
    ∧ length data = 2%nat.
Proof.
  destruct (C1_rows_follow_input_order
              (fun cp => (cp, [])) (fun _ => js "NaN") (Some (js "aapl, msft"))
              [ (1%nat, Rejects (RError (js "Error") (js "Not Found")));
                (0%nat, Fulfils (VObject {[ js "shortName" := VStr (js "Apple Inc.") ]})) ])
    as (data & Hget & Hlen & _).
  - by vm_compute.
  - settles_all_tac.
  - by exists data.
Defined.

(** C2: for a request with N >= 1 symbols, the trace of the handler is the
    N calls of [yahoo.quote], one for each position and all of them made
    before anything settles, then settlements only, then the response if
    there is one.  The handler responds exactly when every one of the N
    lookups has settled, whether fulfilled or rejected, and then each of
    them has its settlement in the trace before the response.  Every lookup
    that the environment settles is recorded with its own result, whatever
    the outcomes of the others: a rejection neither ends the wait early nor
    keeps another lookup from settling. *)
Theorem C2_all_settled_fan_out_fan_in
    (up : N → N * list N) (nts : number → jsstring)
    (tickersParam : option jsstring) (env : list (nat * outcome)) :
  tickers_of up tickersParam ≠ [] →
  ∃ settles,
    (GET up nts tickersParam env).1
    = imap Call (tickers_of up tickersParam) ++ settles
        ++ from_option (fun r => [Respond r]) [] (GET up nts tickersParam env).2
    ∧ Forall (fun ev => is_Settle ev = true) settles
    ∧ (is_Some (GET up nts tickersParam env).2
       ↔ settles_all (length (tickers_of up tickersParam)) env)
    ∧ (is_Some (GET up nts tickersParam env).2 →
       ∀ i, (i < length (tickers_of up tickersParam))%nat →
            ∃ r, Settle i r ∈ settles)
    ∧ (∀ i ticker o,
         tickers_of up tickersParam !! i = Some ticker →
         first_outcome env i = Some o →
         Settle i (quote_task ticker o) ∈ settles).
Proof.
  intros Hne. rewrite GET_run; [done|]. cbn zeta. cbn [fst snd].
  set (tickers := tickers_of up tickersParam) in *.
  set (pending := (fun _ => None) <$> tickers).
  exists (await_all tickers pending env).1.
  assert (is_Some (ok_response ∘ data_of nts tickers
                     <$> (await_all tickers pending env).2)
          ↔ settles_all (length tickers) env) as Hiff.
  { rewrite fmap_is_Some -not_eq_None_Some.
    rewrite (await_all_suspended tickers env).
    split; [|tauto]. intros Hnn i Hi.
    destruct (first_outcome env i) eqn:Ho; [done|]. destruct Hnn.
    intros Hall. destruct (Hall i Hi) as [o Ho']. congruence. }
  assert (∀ i ticker o,
            tickers !! i = Some ticker → first_outcome env i = Some o →
            Settle i (quote_task ticker o) ∈ (await_all tickers pending env).1)
    as Hrec.
  { intros i ticker o Ht Ho. apply await_all_trace_records; [|done..].
    unfold pending. by rewrite list_lookup_fmap Ht. }
  split_and!; [done|apply await_all_trace_Settle|done| |done].
  intros Hall%Hiff i Hi.
  destruct (lookup_lt_is_Some_2 tickers i Hi) as [ticker Ht].
  destruct (Hall i Hi) as [o Ho]. eauto.
Qed.

Lemma C2_all_settled_fan_out_fan_in_witness :
  ∃ settles,
    (GET (fun cp => (cp, [])) (fun _ => js "NaN") (Some (js "aapl,msft"))
       [ (1%nat, Rejects (RStr (js "timeout"))) ]).1
    = Call 0 (js "AAPL") :: Call 1 (js "MSFT") :: settles
    ∧ settles = [ Settle 1 (Rejected (RStr (js "timeout"))) ].
Proof.
  destruct (C2_all_settled_fan_out_fan_in
              (fun cp => (cp, [])) (fun _ => js "NaN") (Some (js "aapl,msft"))
              [ (1%nat, Rejects (RStr (js "timeout"))) ])
    as (settles & Htrace & _).
  - by vm_compute.
  - eexists. split; [|reflexivity]. by vm_compute.
Defined.

(** C3: for a request that parses to N >= 1 symbols and whose lookups all
    settle, the handler responds, with status 200 and N rows, each of them
    an object tagged with [ok]; when every one of the lookups is rejected
    the response is the same but for N rows tagged [ok: false]. *)
Theorem C3_batch_never_fails
    (up : N → N * list N) (nts : number → jsstring)
    (tickersParam : option jsstring) (env : list (nat * outcome)) :
  tickers_of up tickersParam ≠ [] →
  settles_all (length (tickers_of up tickersParam)) env →
  ∃ r data,
    (GET up nts tickersParam env).2 = Some r
    ∧ status r = 200%Z
    ∧ body r = VObject {[ js "data" := VArray data ]}
    ∧ length data = length (tickers_of up tickersParam)
    ∧ (∀ v, v ∈ data →
            ∃ row ok, v = VObject row ∧ row !! js "ok" = Some (VBool ok))
    ∧ ((∀ i o, (i < length (tickers_of up tickersParam))%nat →
               first_outcome env i = Some o → ∃ e, o = Rejects e) →
       ∀ v, v ∈ data →
            ∃ row, v = VObject row ∧ row !! js "ok" = Some (VBool false)).
Proof.
  intros Hne Hall.
  destruct (GET_data up nts _ _ Hne Hall) as (data & Hget & Hlen & Hrows).
  exists (ok_response data), data. split_and!; [done..| |].
  - intros v (i & Hv)%list_elem_of_lookup.
    assert (i < length (tickers_of up tickersParam))%nat as Hi.
    { rewrite -Hlen. by eapply lookup_lt_Some. }
    destruct (lookup_lt_is_Some_2 _ _ Hi) as [ticker Ht].
    destruct (Hall i Hi) as [o Ho].
    destruct (row_tagged nts ticker o) as (row & ok & Hrow & _ & Hok & _).
    exists row, ok. rewrite (Hrows _ _ _ Ht Ho) Hrow in Hv. by simplify_eq.
  - intros Hrej v (i & Hv)%list_elem_of_lookup.
    assert (i < length (tickers_of up tickersParam))%nat as Hi.
    { rewrite -Hlen. by eapply lookup_lt_Some. }
    destruct (lookup_lt_is_Some_2 _ _ Hi) as [ticker Ht].
    destruct (Hall i Hi) as [o Ho].
    destruct (Hrej i o Hi Ho) as [e ->].
    rewrite (Hrows _ _ _ Ht Ho) in Hv. simplify_eq. by eexists.
Qed.

Lemma C3_batch_never_fails_witness :
  ∃ r,
    (GET (fun cp => (cp, [])) (fun _ => js "NaN") (Some (js "zzzz,aapl"))
       [ (0%nat, Rejects (RError (js "Error") (js "Not Found")));
         (1%nat, Rejects (RError (js "TypeError") (js "fetch failed"))) ]).2
    = Some r
    ∧ status r = 200%Z.
Proof.
  destruct (C3_batch_never_fails
              (fun cp => (cp, [])) (fun _ => js "NaN") (Some (js "zzzz,aapl"))
              [ (0%nat, Rejects (RError (js "Error") (js "Not Found")));
                (1%nat, Rejects (RError (js "TypeError") (js "fetch failed"))) ])
    as (r & data & Hget & Hstatus & _).
  - by vm_compute.
  - settles_all_tac.
  - by exists r.
Defined.

(** C4: on every raw string the parser of the handler agrees with the
    parser as specified (split on [,], trim each piece, drop the pieces that
    are empty after trimming, uppercase the others, keeping order and
    duplicates); and ["  aapl , MSFT,, msft "] parses to
    [["AAPL"; "MSFT"; "MSFT"]]. *)
Theorem C4_parser (up : N → N * list N) :
  (∀ raw, parse_tickers up raw = spec_parse up raw)
  ∧ parse_tickers up (js "  aapl , MSFT,, msft ")
    = [js "AAPL"; js "MSFT"; js "MSFT"].
Proof. split; [apply parse_tickers_refines|reflexivity]. Qed.

(** C5: a request whose parsed symbol sequence is empty is answered with
    status 400 and body [{ error: "Missing tickers" }], and the response is
    all that happens: no lookup is started.  A missing parameter and a
    string of nothing but commas and white space are such requests. *)
Theorem C5_missing_tickers
    (up : N → N * list N) (nts : number → jsstring) :
  (∀ tickersParam env,
     tickers_of up tickersParam = [] →
     GET up nts tickersParam env
     = ([Respond {| status := 400;
                    body := VObject {[ js "error" := VStr (js "Missing tickers") ]} |}],
        Some {| status := 400;
                body := VObject {[ js "error" := VStr (js "Missing tickers") ]} |}))
  ∧ tickers_of up None = []
  ∧ (∀ raw,
       Forall (fun u => u = 0x2C ∨ JsString.is_white_space u = true) raw →
       tickers_of up (Some raw) = []).
Proof.
  split_and!.
  - intros tickersParam env Hnil. by rewrite GET_missing.
  - reflexivity.
  - intros raw Hraw. unfold tickers_of. apply parse_tickers_blank.
    unfold param_or. destruct raw; [by constructor|done].
Qed.

Lemma C5_missing_tickers_witness :
  GET (fun cp => (cp, [])) (fun _ => js "NaN") (Some (js " , ,,"))
    [ (0%nat, Fulfils VNull) ]
  = ([Respond missing_tickers], Some missing_tickers).
Proof.
  apply (proj1 (C5_missing_tickers (fun cp => (cp, [])) (fun _ => js "NaN"))).
  apply (proj2 (proj2 (C5_missing_tickers (fun cp => (cp, [])) (fun _ => js "NaN")))).
  by repeat constructor.
Defined.

(** C6, as stated, fails: a payload whose short name is the empty string
    has a short name, and the row is named by the long name. *)
Lemma C6_counterexample :
  ∃ row,
    quote_task (js "AAPL")
      (Fulfils (VObject {[ js "shortName" := VStr (js "");
                           js "longName" := VStr (js "Apple Inc.") ]}))
    = Fulfilled row
    ∧ row !! js "name" = Some (VStr (js "Apple Inc."))
    ∧ spec_display_name
        {[ js "shortName" := VStr (js "");
           js "longName" := VStr (js "Apple Inc.") ]} (js "AAPL")
      = VStr (js "")
    ∧ row !! js "name"
      ≠ Some (spec_display_name
                {[ js "shortName" := VStr (js "");
                   js "longName" := VStr (js "Apple Inc.") ]} (js "AAPL")).
Proof. eexists. split_and!; [reflexivity|done..]. Qed.

(** C6, amended: for every symbol whose lookup is fulfilled with a payload
    other than [undefined] and [null], the row is tagged [ok: true], carries
    the symbol, and is named by the payload's short name if that is truthy
    (present and not empty), otherwise by its long name if that is truthy,
    otherwise by the symbol; [price], [changePercent] and [currency] are the
    payload's [regularMarketPrice], [regularMarketChangePercent] and
    [currency]. *)
Theorem C6_success_row
    (up : N → N * list N) (nts : number → jsstring)
    (tickersParam : option jsstring) (env : list (nat * outcome))
    (i : nat) (ticker : jsstring) (q : value) :
  tickers_of up tickersParam !! i = Some ticker →
  settles_all (length (tickers_of up tickersParam)) env →
  first_outcome env i = Some (Fulfils q) →
  nullish q = false →
  ∃ data row,
    (GET up nts tickersParam env).2 = Some (ok_response data)
    ∧ data !! i = Some (VObject row)
    ∧ row !! js "ok" = Some (VBool true)
    ∧ row !! js "ticker" = Some (VStr ticker)
    ∧ row !! js "name"
      = Some (if ToBoolean (property_of q "shortName")
              then property_of q "shortName"
              else if ToBoolean (property_of q "longName")
                   then property_of q "longName"
                   else VStr ticker)
    ∧ row !! js "price" = Some (property_of q "regularMarketPrice")
    ∧ row !! js "changePercent" = Some (property_of q "regularMarketChangePercent")
    ∧ row !! js "currency" = Some (property_of q "currency").
Proof.
  intros Ht Hall Ho Hq.
  destruct (GET_fulfilled_row up nts _ _ _ _ _ Ht Hall Ho Hq) as (data & Hget & Hrow).
  exists data. eexists. split_and!; [done|exact Hrow|done|done| |done|done|done].
  transitivity (Some (property_of q "shortName"
                      ||| property_of q "longName" ||| VStr ticker)); [done|].
  unfold js_or.
  destruct (ToBoolean (property_of q "shortName")) eqn:Hshort; [|done].
  by rewrite Hshort.
Qed.

Lemma C6_success_row_witness :
  ∃ data row,
    (GET (fun cp => (cp, [])) (fun _ => js "NaN") (Some (js "aapl"))
       [ (0%nat, Fulfils (VObject {[ js "shortName" := VStr (js "");
                                     js "longName" := VStr (js "Apple Inc.") ]})) ]).2
    = Some (ok_response data)
    ∧ data !! 0%nat = Some (VObject row)
    ∧ row !! js "name" = Some (VStr (js "Apple Inc."))
    ∧ row !! js "price" = Some VUndefined.
Proof.
  destruct (C6_success_row
              (fun cp => (cp, [])) (fun _ => js "NaN") (Some (js "aapl"))
              [ (0%nat, Fulfils (VObject {[ js "shortName" := VStr (js "");
                                            js "longName" := VStr (js "Apple Inc.") ]})) ]
              0%nat (js "AAPL")
              (VObject {[ js "shortName" := VStr (js "");
                          js "longName" := VStr (js "Apple Inc.") ]}))
    as (data & row & Hget & Hrow & _ & _ & Hname & Hprice & _).
  - reflexivity.
  - settles_all_tac.
  - reflexivity.
  - reflexivity.
  - exists data, row. split_and!; [exact Hget|exact Hrow|exact Hname|exact Hprice].
Defined.

(** C7, as stated, fails: an [Error] made with an empty message has a
    message field, and the row carries the string form of the error. *)
Lemma C7_counterexample :
  result_row (fun _ => js "NaN") (VStr (js "AAPL"))
    (quote_task (js "AAPL") (Rejects (RError (js "Error") (js ""))))
  = VObject {[ js "ok" := VBool false;
               js "ticker" := VStr (js "AAPL");
               js "error" := VStr (js "Error") ]}
  ∧ spec_error_text (String_of (fun _ => js "NaN")) (RError (js "Error") (js ""))
    = VStr (js "")
  ∧ VStr (js "Error")
    ≠ spec_error_text (String_of (fun _ => js "NaN")) (RError (js "Error") (js "")).
Proof. split_and!; [reflexivity|reflexivity|done]. Qed.

(** C7, amended: for every symbol whose lookup fails (the provider rejects
    it, or the payload cannot be read from), the row is
    [{ ok: false, ticker, error }] with [error] the message of the error if
    that is truthy (present and not empty) and the string form of the error
    otherwise; the rows at the other positions are those of their own
    lookups; and the handler calls [yahoo.quote] once for each position,
    the failed one included. *)
Theorem C7_failure_row
    (up : N → N * list N) (nts : number → jsstring)
    (tickersParam : option jsstring) (env : list (nat * outcome))
    (i : nat) (ticker : jsstring) (o : outcome) (e : reason) :
  tickers_of up tickersParam !! i = Some ticker →
  settles_all (length (tickers_of up tickersParam)) env →
  first_outcome env i = Some o →
  quote_task ticker o = Rejected e →
  ∃ data,
    (GET up nts tickersParam env).2 = Some (ok_response data)
    ∧ data !! i
      = Some (VObject {[ js "ok" := VBool false;
                         js "ticker" := VStr ticker;
                         js "error" := if ToBoolean (message_of e)
                                       then message_of e
                                       else VStr (String_of nts e) ]})
    ∧ (∀ j ticker' o',
         j ≠ i →
         tickers_of up tickersParam !! j = Some ticker' →
         first_outcome env j = Some o' →
         data !! j = Some (result_row nts (VStr ticker') (quote_task ticker' o')))
    ∧ List.filter is_Call (GET up nts tickersParam env).1
      = imap Call (tickers_of up tickersParam).
Proof.
  intros Ht Hall Ho He.
  assert (tickers_of up tickersParam ≠ []) as Hne.
  { intros Hnil. by rewrite Hnil in Ht. }
  destruct (GET_data up nts _ _ Hne Hall) as (data & Hget & _ & Hrows).
  exists data. split_and!; [done| | |by apply GET_calls].
  - by rewrite (Hrows _ _ _ Ht Ho) He.
  - intros j ticker' o' _ Ht' Ho'. by apply Hrows.
Qed.

Lemma C7_failure_row_witness :
  ∃ data,
    (GET (fun cp => (cp, [])) (fun _ => js "NaN") (Some (js "zzzz,aapl"))
       [ (1%nat, Fulfils (VObject ∅));
         (0%nat, Rejects (RError (js "Error") (js ""))) ]).2
    = Some (ok_response data)
    ∧ data !! 0%nat
      = Some (VObject {[ js "ok" := VBool false;
                         js "ticker" := VStr (js "ZZZZ");
                         js "error" := VStr (js "Error") ]}).
Proof.
  destruct (C7_failure_row
              (fun cp => (cp, [])) (fun _ => js "NaN") (Some (js "zzzz,aapl"))
              [ (1%nat, Fulfils (VObject ∅));
                (0%nat, Rejects (RError (js "Error") (js ""))) ]
              0%nat (js "ZZZZ") (Rejects (RError (js "Error") (js "")))
              (RError (js "Error") (js "")))
    as (data & Hget & Hrow & _).
  - reflexivity.
  - settles_all_tac.
  - reflexivity.
  - reflexivity.
  - exists data. split; [exact Hget|exact Hrow].
Defined.

(** C8: when a symbol stands at two positions of a request whose lookups all
    settle, the handler calls [yahoo.quote] once for each position, so twice
    for that symbol, and each of the two rows is the row of its own lookup's
    outcome: neither depends on the outcome of the other. *)
Theorem C8_duplicates_looked_up_independently
    (up : N → N * list N) (nts : number → jsstring)
    (tickersParam : option jsstring) (env : list (nat * outcome))
    (i j : nat) (ticker : jsstring) (oi oj : outcome) :
  i ≠ j →
  tickers_of up tickersParam !! i = Some ticker →
  tickers_of up tickersParam !! j = Some ticker →
  settles_all (length (tickers_of up tickersParam)) env →
  first_outcome env i = Some oi →
  first_outcome env j = Some oj →
  ∃ data,
    (GET up nts tickersParam env).2 = Some (ok_response data)
    ∧ List.filter is_Call (GET up nts tickersParam env).1
      = imap Call (tickers_of up tickersParam)
    ∧ imap Call (tickers_of up tickersParam) !! i = Some (Call i ticker)
    ∧ imap Call (tickers_of up tickersParam) !! j = Some (Call j ticker)
    ∧ data !! i = Some (result_row nts (VStr ticker) (quote_task ticker oi))
    ∧ data !! j = Some (result_row nts (VStr ticker) (quote_task ticker oj)).
Proof.
  intros Hij Hi Hj Hall Hoi Hoj.
  assert (tickers_of up tickersParam ≠ []) as Hne.
  { intros Hnil. by rewrite Hnil in Hi. }
  destruct (GET_data up nts _ _ Hne Hall) as (data & Hget & Hlen & Hrows).
  exists data. split_and!; [done|by apply GET_calls|..].
  - by rewrite list_lookup_imap Hi.
  - by rewrite list_lookup_imap Hj.
  - by apply Hrows.
  - by apply Hrows.
Qed.

Lemma C8_duplicates_looked_up_independently_witness :
  ∃ data rowi rowj,
    (GET (fun cp => (cp, [])) (fun _ => js "NaN") (Some (js "msft,MSFT"))
       [ (1%nat, Fulfils (VObject {[ js "longName" := VStr (js "Microsoft") ]}));
         (0%nat, Rejects (RError (js "Error") (js "socket hang up"))) ]).2
    = Some (ok_response data)
    ∧ data !! 0%nat = Some (VObject rowi)
    ∧ rowi !! js "ok" = Some (VBool false)
    ∧ data !! 1%nat = Some (VObject rowj)
    ∧ rowj !! js "ok" = Some (VBool true).
Proof.
  destruct (C8_duplicates_looked_up_independently
              (fun cp => (cp, [])) (fun _ => js "NaN") (Some (js "msft,MSFT"))
              [ (1%nat, Fulfils (VObject {[ js "longName" := VStr (js "Microsoft") ]}));
                (0%nat, Rejects (RError (js "Error") (js "socket hang up"))) ]
              0%nat 1%nat (js "MSFT")
              (Rejects (RError (js "Error") (js "socket hang up")))
              (Fulfils (VObject {[ js "longName" := VStr (js "Microsoft") ]})))
    as (data & Hget & _ & _ & _ & Hi & Hj).
  - done.
  - reflexivity.
  - reflexivity.
  - settles_all_tac.
  - reflexivity.
  - reflexivity.
  - exists data. eexists _, _. split_and!; [done|exact Hi|done|exact Hj|done].
Defined.

(** C9, as stated, fails: a request without a ticker and with the range
    [5y], which the table does not list, is answered with
    [{ error: "Missing ticker" }], not with [{ error: "Invalid range" }]. *)
Lemma C9_counterexample :
  (History.range_of (fun s => s) (Some (js "5y")) ∉ History.ranges)
  ∧ History.GET (fun cp => (cp, [])) (fun s => s) None (Some (js "5y"))
    = History.Responds
        {| status := 400;
           body := VObject {[ js "error" := VStr (js "Missing ticker") ]} |}
  ∧ History.GET (fun cp => (cp, [])) (fun s => s) None (Some (js "5y"))
    ≠ History.Responds
        {| status := 400;
           body := VObject {[ js "error" := VStr (js "Invalid range") ]} |}.
Proof.
  split_and!.
  - by_bool_decide.
  - reflexivity.
  - intros H. by vm_compute in H.
Qed.

(** C9, amended: the range is the parameter in lower case, ["1y"] when the
    parameter is absent.  A request whose ticker is empty is answered with
    status 400 and [{ error: "Missing ticker" }], whatever its range.  For a
    request with a ticker: when the range is one of ["1m"], ["3m"], ["6m"],
    ["1y"], the handler calls [yahoo.historical] with the days the table
    lists; when it is none of them, and not the name of a property that the
    table inherits, the response is status 400 with
    [{ error: "Invalid range" }] and no call is made. *)
Theorem C9_range_validation
    (up : N → N * list N) (low : jsstring → jsstring)
    (tickerParam rangeParam : option jsstring) :
  History.range_of low None = js "1y"
  ∧ (History.ticker_of up tickerParam = [] →
     History.GET up low tickerParam rangeParam
     = History.Responds
         {| status := 400;
            body := VObject {[ js "error" := VStr (js "Missing ticker") ]} |})
  ∧ (History.ticker_of up tickerParam ≠ [] →
     History.range_of low rangeParam ∈ History.ranges →
     ∃ days,
       History.RANGE_TO_DAYS !! History.range_of low rangeParam = Some days
       ∧ History.GET up low tickerParam rangeParam
         = History.CallsHistorical (History.ticker_of up tickerParam)
             (History.range_of low rangeParam) (History.Own days))
  ∧ (History.ticker_of up tickerParam ≠ [] →
     History.range_of low rangeParam ∉ History.ranges →
     History.range_of low rangeParam ∉ History.Object_prototype →
     History.GET up low tickerParam rangeParam
     = History.Responds
         {| status := 400;
            body := VObject {[ js "error" := VStr (js "Invalid range") ]} |}).
Proof.
  rewrite GET_unfold ToBoolean_VStr. split_and!.
  - reflexivity.
  - by intros ->.
  - intros Hticker [days Hdays]%RANGE_TO_DAYS_listed.
    exists days. split; [done|].
    rewrite bool_decide_eq_false_2; [done|]. simpl.
    unfold History.RANGE_TO_DAYS_at. rewrite Hdays. simpl.
    by rewrite (RANGE_TO_DAYS_truthy _ _ Hdays).
  - intros Hticker Hrange Hproto.
    rewrite bool_decide_eq_false_2; [done|]. simpl.
    unfold History.RANGE_TO_DAYS_at.
    destruct (History.RANGE_TO_DAYS !! _) as [days|] eqn:Hdays.
    { destruct Hrange. apply RANGE_TO_DAYS_listed. by rewrite Hdays. }
    by rewrite bool_decide_eq_false_2.
Qed.

Lemma C9_range_validation_witness :
  History.GET (fun cp => (cp, [])) (fun s => s) (Some (js "aapl")) (Some (js "5Y"))
  = History.Responds History.invalid_range
  ∧ History.GET (fun cp => (cp, [])) (fun s => s) (Some (js "aapl")) (Some (js "6M"))
    = History.CallsHistorical (js "AAPL") (js "6m") (History.Own 186).
Proof.
  split.
  - apply (C9_range_validation
             (fun cp => (cp, [])) (fun s => s) (Some (js "aapl")) (Some (js "5Y"))).
    + by vm_compute.
    + by_bool_decide.
    + by_bool_decide.
  - destruct (C9_range_validation
                (fun cp => (cp, [])) (fun s => s) (Some (js "aapl")) (Some (js "6M")))
      as (_ & _ & Hlisted & _).
    destruct Hlisted as (days & Hdays & Hget).
    + by vm_compute.
    + by_bool_decide.
    + rewrite Hget. f_equal. vm_compute in Hdays. by simplify_eq.
Defined.

(** A range that names a property the table inherits from
    [Object.prototype] passes the validation of line 23: the handler goes on
    to call [yahoo.historical]. *)
Lemma inherited_range_passes_validation up low :
  (History.range_of low (Some (js "constructor")) ∉ History.ranges)
  ∧ History.GET up low (Some (js "aapl")) (Some (js "constructor"))
    = History.CallsHistorical (js "AAPL") (js "constructor")
        (History.Inherited (js "constructor")).
Proof.
  split; [by_bool_decide|by vm_compute].
Qed.

(** C10, as stated, fails: a lookup fulfilled with [undefined] gives a row
    tagged [ok: false]. *)
Lemma C10_counterexample :
  (GET (fun cp => (cp, [])) (fun _ => js "NaN") (Some (js "zzzz"))
     [ (0%nat, Fulfils VUndefined) ]).2
  = Some (ok_response
            [ VObject {[ js "ok" := VBool false;
                         js "ticker" := VStr (js "ZZZZ");
                         js "error" :=
                           VStr (js "Cannot read properties of undefined (reading 'shortName')") ]} ]).
Proof. by vm_compute. Qed.

(** C10, amended: a lookup fulfilled with a payload other than [undefined]
    and [null] always gives a row tagged [ok: true], whose [price],
    [changePercent] and [currency] are copied from the payload unchecked:
    where the payload lacks [regularMarketPrice],
    [regularMarketChangePercent] or [currency], the row has [undefined]
    there.  A lookup fulfilled with [undefined] or [null] gives a row tagged
    [ok: false]. *)
Theorem C10_success_row_unvalidated
    (up : N → N * list N) (nts : number → jsstring)
    (tickersParam : option jsstring) (env : list (nat * outcome))
    (i : nat) (ticker : jsstring) (q : value) :
  tickers_of up tickersParam !! i = Some ticker →
  settles_all (length (tickers_of up tickersParam)) env →
  first_outcome env i = Some (Fulfils q) →
  ∃ data row,
    (GET up nts tickersParam env).2 = Some (ok_response data)
    ∧ data !! i = Some (VObject row)
    ∧ row !! js "ok" = Some (VBool (negb (nullish q)))
    ∧ (nullish q = false →
       row !! js "price" = Some (property_of q "regularMarketPrice")
       ∧ row !! js "changePercent" = Some (property_of q "regularMarketChangePercent")
       ∧ row !! js "currency" = Some (property_of q "currency")
       ∧ ∀ props,
           q = VObject props →
           (props !! js "regularMarketPrice" = None →
            row !! js "price" = Some VUndefined)
           ∧ (props !! js "regularMarketChangePercent" = None →
              row !! js "changePercent" = Some VUndefined)
           ∧ (props !! js "currency" = None →
              row !! js "currency" = Some VUndefined)).
Proof.
  intros Ht Hall Ho.
  destruct (nullish q) eqn:Hq.
  - assert (tickers_of up tickersParam ≠ []) as Hne.
    { intros Hnil. by rewrite Hnil in Ht. }
    destruct (GET_data up nts _ _ Hne Hall) as (data & Hget & _ & Hrows).
    destruct (quote_task_nullish ticker q Hq) as (message & _ & Htask).
    exists data. eexists. split; [done|].
    split; [by rewrite (Hrows _ _ _ Ht Ho) Htask|]. by split.
  - destruct (GET_fulfilled_row up nts _ _ _ _ _ Ht Hall Ho Hq)
      as (data & Hget & Hrow).
    exists data. eexists. split_and!; [done|exact Hrow|done|].
    intros _. split_and!; [done..|].
    intros props ->. simpl.
    split_and!; intros Hnone; by rewrite Hnone.
Qed.

Lemma C10_success_row_unvalidated_witness :
  ∃ data row,
    (GET (fun cp => (cp, [])) (fun _ => js "NaN") (Some (js "aapl"))
       [ (0%nat, Fulfils (VObject {[ js "currency" := VStr (js "USD") ]})) ]).2
    = Some (ok_response data)
    ∧ data !! 0%nat = Some (VObject row)
    ∧ row !! js "ok" = Some (VBool true)
    ∧ row !! js "price" = Some VUndefined.
Proof.
  destruct (C10_success_row_unvalidated
              (fun cp => (cp, [])) (fun _ => js "NaN") (Some (js "aapl"))
              [ (0%nat, Fulfils (VObject {[ js "currency" := VStr (js "USD") ]})) ]
              0%nat (js "AAPL") (VObject {[ js "currency" := VStr (js "USD") ]}))
    as (data & row & Hget & Hrow & Hok & Hfields).
  - reflexivity.
  - settles_all_tac.
  - reflexivity.
  - destruct (Hfields eq_refl) as (Hprice & _).
    exists data, row. split_and!; [exact Hget|exact Hrow|exact Hok|exact Hprice].
Defined.

(** * Further properties *)

(** ** The parser, continued *)

Section ParserMore.
Import JsString.
Variable up : N → N * list N.

Lemma split_without_sep sep s : sep ∉ s → split sep s = [s].
Proof.
  induction s as [|u t IH]; [done|]. intros Hnot. simpl.
  destruct (N.eqb_spec u sep) as [->|Hne]; [by destruct Hnot; left|].
  rewrite IH; [|done]. intros Hin. apply Hnot. by right.
Qed.

Lemma split_app_sep sep s rest :
  sep ∉ s → split sep (s ++ sep :: rest) = s :: split sep rest.
Proof.
  induction s as [|u t IH]; intros Hnot; simpl.
  - by rewrite N.eqb_refl.
  - destruct (N.eqb_spec u sep) as [->|Hne]; [by destruct Hnot; left|].
    rewrite IH; [|done]. intros Hin. apply Hnot. by right.
Qed.

(** Splitting undoes joining, for strings without the separator. *)
Lemma split_join_inverse sep strings :
  strings ≠ [] →
  Forall (fun s => sep ∉ s) strings →
  split sep (Page.join [sep] strings) = strings.
Proof.
  intros Hne Hall. induction Hall as [|s strings Hs Hall IH]; [done|].
  destruct strings as [|s' strings'].
  - simpl. by apply split_without_sep.
  - change (Page.join [sep] (s :: s' :: strings'))
      with (s ++ sep :: Page.join [sep] (s' :: strings')).
    rewrite split_app_sep; [done|]. by rewrite IH.
Qed.

Lemma trimStart_fixed s :
  head (is_white_space <$> s) ≠ Some true → trimStart s = s.
Proof. destruct s as [|u t]; [done|]. simpl. by destruct (is_white_space u). Qed.

(** A string that neither starts nor ends with white space trims to
    itself. *)
Lemma trim_fixed s :
  head (is_white_space <$> s) ≠ Some true →
  last (is_white_space <$> s) ≠ Some true →
  trim s = s.
Proof.
  intros Hhead Hlast. unfold trim, trimEnd.
  rewrite (trimStart_fixed s Hhead) trimStart_fixed.
  - by rewrite fmap_reverse head_reverse.
  - by rewrite reverse_involutive.
Qed.

Lemma trim_idempotent s : trim (trim s) = trim s.
Proof.
  destruct (trim_spec s) as (_ & _ & _ & _ & _ & Hhead & Hlast).
  by apply trim_fixed.
Qed.

Lemma trim_elem s u : u ∈ trim s → u ∈ s.
Proof.
  destruct (trim_spec s) as (prefix & suffix & Hs & _).
  intros Hu. rewrite Hs. rewrite !elem_of_app. auto.
Qed.

(** A property that evaluation settles for each of the 128 ASCII code
    units holds for all of them. *)
Lemma ascii_forall (P : N → bool) :
  forallb P (N.of_nat <$> seq 0 128) = true →
  ∀ u, is_ascii u = true → P u = true.
Proof.
  intros Hall u Hu. rewrite forallb_forall in Hall. apply Hall.
  apply list_elem_of_In, list_elem_of_fmap. exists (N.to_nat u).
  split; [by rewrite N2Nat.id|].
  apply elem_of_seq. unfold is_ascii in Hu. apply N.ltb_lt in Hu. lia.
Qed.

Lemma ascii_upper_ascii u : is_ascii u = true → is_ascii (ascii_upper u) = true.
Proof. revert u. by apply ascii_forall. Qed.

Lemma ascii_upper_idempotent u :
  is_ascii u = true → ascii_upper (ascii_upper u) = ascii_upper u.
Proof.
  intros Hu. apply N.eqb_eq. revert u Hu.
  by apply (ascii_forall (fun u => ascii_upper (ascii_upper u) =? ascii_upper u)).
Qed.

Lemma ascii_upper_white_space u :
  is_ascii u = true → is_white_space (ascii_upper u) = is_white_space u.
Proof.
  intros Hu. apply eqb_true_iff. revert u Hu.
  by apply (ascii_forall
              (fun u => eqb (is_white_space (ascii_upper u)) (is_white_space u))).
Qed.

Lemma ascii_upper_comma u :
  is_ascii u = true → ascii_upper u = 0x2C → u = 0x2C.
Proof.
  intros Hu Hc. apply N.eqb_eq.
  assert ((ascii_upper u =? 0x2C) = true) as Hc' by by apply N.eqb_eq.
  revert Hc'. apply implb_true_iff. clear Hc. revert u Hu.
  by apply (ascii_forall (fun u => implb (ascii_upper u =? 0x2C) (u =? 0x2C))).
Qed.

Lemma code_points_ascii s : forallb is_ascii s = true → code_points s = s.
Proof.
  induction s as [|u t IH]; [done|]. intros [Hu Ht]%andb_prop.
  cbn [code_points]. destruct t as [|v t']; [done|].
  assert (is_lead u = false) as ->.
  { unfold is_ascii in Hu. apply N.ltb_lt in Hu. unfold is_lead.
    apply andb_false_intro1, N.leb_gt. lia. }
  simpl. f_equal. by apply IH.
Qed.

(** On an ASCII string [toUpperCase] is the ASCII mapping, letter by
    letter, whatever the case tables beyond ASCII. *)
Lemma toUpperCase_ascii s :
  forallb is_ascii s = true → toUpperCase up s = ascii_upper <$> s.
Proof.
  intros Hs. unfold toUpperCase. rewrite code_points_ascii; [done|].
  induction s as [|u t IH]; [done|].
  apply andb_prop in Hs as [Hu Ht]. cbn [fmap list_fmap concat].
  unfold upper_code_point at 1. rewrite Hu. cbn [app fmap list_fmap concat].
  rewrite -/(fmap upper_code_point t) -/(fmap code_units _) IH; [done|].
  unfold code_units at 1.
  assert ((ascii_upper u <? 0x10000) = true) as ->; [|done].
  apply N.ltb_lt. pose proof (ascii_upper_ascii u Hu) as H.
  unfold is_ascii in H. apply N.ltb_lt in H. lia.
Qed.

Lemma forallb_is_ascii_elem s u :
  forallb is_ascii s = true → u ∈ s → is_ascii u = true.
Proof.
  rewrite forallb_forall. intros Hs Hu. by apply Hs, list_elem_of_In.
Qed.

Lemma trim_ascii s : forallb is_ascii s = true → forallb is_ascii (trim s) = true.
Proof.
  intros Hs. apply forallb_forall. intros u Hu%list_elem_of_In.
  eapply forallb_is_ascii_elem; [done|]. by apply trim_elem.
Qed.

Lemma fmap_ascii_upper_ascii s :
  forallb is_ascii s = true → forallb is_ascii (ascii_upper <$> s) = true.
Proof.
  intros Hs. apply forallb_forall.
  intros u (v & -> & Hv)%list_elem_of_In%list_elem_of_fmap.
  apply ascii_upper_ascii. by eapply forallb_is_ascii_elem.
Qed.

Lemma fmap_ascii_upper_white_space s :
  forallb is_ascii s = true →
  is_white_space <$> (ascii_upper <$> s) = is_white_space <$> s.
Proof.
  intros Hs. rewrite -list_fmap_compose. apply list_fmap_ext.
  intros i u Hu. simpl. apply ascii_upper_white_space.
  eapply forallb_is_ascii_elem; [done|]. by eapply list_elem_of_lookup_2.
Qed.

(** What the parser makes of an ASCII piece that does not trim to nothing
    is a symbol it would return unchanged. *)
Lemma normalized_piece piece :
  forallb is_ascii piece = true →
  0x2C ∉ piece →
  trim piece ≠ [] →
  normalized up (toUpperCase up (trim piece)).
Proof.
  intros Hascii Hcomma Hne.
  pose proof (trim_ascii _ Hascii) as Htrim.
  rewrite toUpperCase_ascii; [done|]. split_and!.
  - by destruct (trim piece).
  - intros (v & Hv & Hin)%list_elem_of_fmap. apply Hcomma.
    apply trim_elem. symmetry in Hv.
    apply ascii_upper_comma in Hv as ->; [done|].
    by eapply forallb_is_ascii_elem.
  - destruct (trim_spec piece) as (_ & _ & _ & _ & _ & Hhead & Hlast).
    apply trim_fixed; by rewrite fmap_ascii_upper_white_space.
  - rewrite toUpperCase_ascii; [by apply fmap_ascii_upper_ascii|].
    rewrite -list_fmap_compose. apply list_fmap_ext. intros i u Hu. simpl.
    apply ascii_upper_idempotent.
    eapply forallb_is_ascii_elem; [done|]. by eapply list_elem_of_lookup_2.
Qed.

End ParserMore.

Section ParserTheorems.
Import JsString Batch.

Lemma parse_tickers_elem up raw t :
  t ∈ parse_tickers up raw →
  t ≠ [] ∧ ∃ piece, piece ∈ split 0x2C raw ∧ t = toUpperCase up (trim piece).
Proof.
  unfold parse_tickers.
  intros [Ht Hin]%list_elem_of_In%filter_In. split; [by destruct t|].
  apply list_elem_of_In, list_elem_of_fmap in Ht as (piece & -> & Hpiece).
  by exists piece.
Qed.

Lemma parse_tickers_ascii_normalized up raw :
  forallb is_ascii raw = true → Forall (normalized up) (parse_tickers up raw).
Proof.
  intros Hraw. apply Forall_forall. intros t (Hne & piece & Hpiece & ->)%parse_tickers_elem.
  apply normalized_piece.
  - apply forallb_forall. intros u Hu%list_elem_of_In.
    eapply forallb_is_ascii_elem; [done|]. by eapply split_elem.
  - by eapply split_no_sep.
  - intros Hnil. by rewrite Hnil in Hne.
Qed.

Lemma parse_tickers_join up tickers :
  Forall (normalized up) tickers →
  parse_tickers up (Page.snapshot_query tickers) = tickers.
Proof.
  intros Hall. destruct (decide (tickers = [])) as [->|Hne]; [done|].
  unfold parse_tickers, Page.snapshot_query.
  rewrite (split_join_inverse 0x2C tickers Hne).
  { eapply Forall_impl; [done|]. by intros t (_ & ? & _). }
  clear Hne. induction Hall as [|t tickers (Hne & _ & Htrim & Hupper) _ IH]; [done|].
  cbn [fmap list_fmap List.filter]. rewrite Htrim Hupper.
  rewrite -/(fmap _ tickers) IH. by destruct t.
Qed.

End ParserTheorems.

(** X1: on an ASCII parameter every symbol the parser returns is non-empty,
    free of commas, free of white space at either end, and left unchanged by
    upper-casing; so joining the symbols with commas and parsing again gives
    the same symbols. *)
Theorem parse_tickers_normalizes (up : N → N * list N) (raw : jsstring) :
  forallb JsString.is_ascii raw = true →
  Forall (normalized up) (parse_tickers up raw)
  ∧ parse_tickers up (Page.snapshot_query (parse_tickers up raw))
    = parse_tickers up raw.
Proof.
  intros Hraw. pose proof (parse_tickers_ascii_normalized up raw Hraw) as Hall.
  split; [done|]. by apply parse_tickers_join.
Qed.

Lemma parse_tickers_normalizes_witness :
  parse_tickers (fun cp => (cp, []))
    (Page.snapshot_query
       (parse_tickers (fun cp => (cp, [])) (js " brk-b ,, ltm.sn,aapl")))
  = [js "BRK-B"; js "LTM.SN"; js "AAPL"].
Proof.
  rewrite (proj2 (parse_tickers_normalizes (fun cp => (cp, []))
                    (js " brk-b ,, ltm.sn,aapl") eq_refl)).
  reflexivity.
Defined.

(** X2: the parameter that the page builds from a list of normalized
    symbols (non-empty, without commas, trimmed, in upper case) parses back
    to that list: same symbols, same order, same duplicates. *)
Theorem snapshot_query_round_trip (up : N → N * list N) (tickers : list jsstring) :
  Forall (normalized up) tickers →
  tickers_of up (Some (Page.snapshot_query tickers)) = tickers.
Proof.
  intros Hall. unfold tickers_of, param_or.
  destruct (ToBoolean (VStr (Page.snapshot_query tickers))) eqn:Hq.
  - by apply parse_tickers_join.
  - rewrite -(parse_tickers_join up tickers Hall).
    by destruct (Page.snapshot_query tickers).
Qed.

Lemma allTickers_normalized :
  Forall (normalized (fun cp => (cp, []))) Page.allTickers.
Proof.
  repeat (constructor;
          [split_and!; [done|by_bool_decide|reflexivity|reflexivity]|]).
  constructor.
Defined.

Lemma snapshot_query_round_trip_witness :
  tickers_of (fun cp => (cp, [])) (Some (Page.snapshot_query Page.allTickers))
  = Page.allTickers.
Proof.
  apply (snapshot_query_round_trip (fun cp => (cp, [])) Page.allTickers).
  exact allTickers_normalized.
Defined.

(** ** The fan-in, continued *)

Section FanInMore.
Import Batch.

(** Once every slot is filled, what else the environment does is without
    effect. *)
Lemma await_all_app tickers env extra slots :
  is_Some (await_all tickers slots env).2 →
  await_all tickers slots (env ++ extra) = await_all tickers slots env.
Proof.
  revert slots. induction env as [|[i o] env IH]; intros slots; simpl.
  - destruct (all_settled slots) eqn:Hall; [|by intros [? ?]].
    intros _. destruct extra as [|[? ?] ?]; simpl; by rewrite Hall.
  - destruct (all_settled slots); [done|].
    destruct (slots !! i) as [[r|]|]; [apply IH| |apply IH].
    destruct (tickers !! i) as [ticker|]; [|apply IH].
    specialize (IH (<[i:=Some (quote_task ticker o)]> slots)).
    destruct (await_all tickers _ env) as [trace results] eqn:Hrun.
    simpl. intros Hsome. by rewrite IH.
Qed.

(** A lookup settles at most once, and only a lookup that was pending. *)
Lemma await_all_settles_once tickers env slots :
  NoDup (settled_indices (await_all tickers slots env).1)
  ∧ ∀ i, i ∈ settled_indices (await_all tickers slots env).1 →
         slots !! i = Some None.
Proof.
  revert slots. induction env as [|[i o] env IH]; intros slots; simpl.
  - destruct (all_settled slots); split; try constructor; by intros ? ?%elem_of_nil.
  - destruct (all_settled slots);
      [split; [constructor|by intros ? ?%elem_of_nil]|].
    destruct (slots !! i) as [[r|]|] eqn:Hi; [apply IH| |apply IH].
    destruct (tickers !! i) as [ticker|]; [|apply IH].
    destruct (IH (<[i:=Some (quote_task ticker o)]> slots)) as [Hnodup Hpending].
    destruct (await_all tickers _ env) as [trace results]. simpl in *.
    assert (i ∉ settled_indices trace) as Hfresh.
    { intros Hin%Hpending.
      rewrite list_lookup_insert_eq in Hin; [by eapply lookup_lt_Some|done]. }
    split; [by constructor|].
    intros j [->|Hj]%elem_of_cons; [done|].
    specialize (Hpending j Hj).
    destruct (decide (i = j)) as [->|Hne]; [done|].
    by rewrite list_lookup_insert_ne in Hpending.
Qed.

Lemma settled_indices_Calls (trace : list event) :
  Forall (fun ev => is_Call ev = true) trace → settled_indices trace = [].
Proof.
  induction 1 as [|ev trace Hev _ IH]; [done|].
  by destruct ev.
Qed.

Lemma await_all_responds_settles_all tickers env :
  is_Some (await_all tickers ((fun _ => None) <$> tickers) env).2 →
  settles_all (length tickers) env.
Proof.
  intros Hsome i Hi.
  destruct (first_outcome env i) eqn:Ho; [done|]. exfalso.
  apply (proj2 (not_eq_None_Some _) Hsome).
  apply await_all_suspended. intros Hall.
  destruct (Hall i Hi) as [o Ho']. congruence.
Qed.

End FanInMore.

(** X3: when every lookup has settled, settlements that come later, or
    again, change nothing: the trace and the response are those of the run
    without them. *)
Theorem late_settlements_ignored
    (up : N → N * list N) (nts : number → jsstring)
    (tickersParam : option jsstring) (env extra : list (nat * outcome)) :
  settles_all (length (tickers_of up tickersParam)) env →
  GET up nts tickersParam (env ++ extra) = GET up nts tickersParam env.
Proof.
  intros Hall.
  destruct (decide (tickers_of up tickersParam = [])) as [Hnil|Hne].
  { by rewrite !GET_missing. }
  rewrite !GET_run; [done..|]. cbn zeta.
  rewrite await_all_app; [|done].
  apply not_eq_None_Some. intros Hnone%await_all_suspended. by apply Hnone.
Qed.

Lemma late_settlements_ignored_witness :
  GET (fun cp => (cp, [])) (fun _ => js "NaN") (Some (js "aapl"))
    ([ (0%nat, Rejects (RStr (js "timeout"))) ]
       ++ [ (0%nat, Fulfils (VObject ∅)); (3%nat, Fulfils VNull) ])
  = GET (fun cp => (cp, [])) (fun _ => js "NaN") (Some (js "aapl"))
      [ (0%nat, Rejects (RStr (js "timeout"))) ].
Proof.
  apply (late_settlements_ignored (fun cp => (cp, [])) (fun _ => js "NaN")).
  settles_all_tac.
Defined.

(** X4: in every run of a request with N symbols each lookup settles at
    most once and only lookups 0..N-1 settle; and when the handler of a
    request with symbols responds, the lookups that have settled are exactly
    0..N-1, each once. *)
Theorem each_lookup_settles_once
    (up : N → N * list N) (nts : number → jsstring)
    (tickersParam : option jsstring) (env : list (nat * outcome)) :
  NoDup (settled_indices (GET up nts tickersParam env).1)
  ∧ (∀ i, i ∈ settled_indices (GET up nts tickersParam env).1 →
          (i < length (tickers_of up tickersParam))%nat)
  ∧ (tickers_of up tickersParam ≠ [] →
     is_Some (GET up nts tickersParam env).2 →
     settled_indices (GET up nts tickersParam env).1
     ≡ₚ seq 0 (length (tickers_of up tickersParam))).
Proof.
  destruct (decide (tickers_of up tickersParam = [])) as [Hnil|Hne].
  { rewrite GET_missing; [done|]. simpl.
    split_and!; [constructor|by intros ? ?%elem_of_nil|done]. }
  set (tickers := tickers_of up tickersParam) in *.
  set (run := await_all tickers ((fun _ => None) <$> tickers) env).
  assert (settled_indices (GET up nts tickersParam env).1
          = settled_indices run.1) as Heq.
  { rewrite GET_run; [done|]. cbn zeta. cbn [fst]. fold tickers. fold run.
    unfold settled_indices. rewrite !omap_app.
    change (omap _ (imap Call tickers))
      with (settled_indices (imap Call tickers)).
    rewrite (settled_indices_Calls _ (calls_are_Calls _)).
    destruct (_ <$> run.2); simpl; by rewrite app_nil_r. }
  assert ((GET up nts tickersParam env).2
          = ok_response ∘ data_of nts tickers <$> run.2) as Hresp.
  { by rewrite GET_run. }
  destruct (await_all_settles_once tickers env ((fun _ => None) <$> tickers))
    as [Hnodup Hpending].
  fold run in Hnodup, Hpending. rewrite Heq Hresp.
  assert (∀ i, i ∈ settled_indices run.1 → (i < length tickers)%nat) as Hbound.
  { intros i Hi%Hpending%lookup_lt_Some. by rewrite length_fmap in Hi. }
  split_and!; [done..|]. intros _ Hsome%fmap_is_Some.
  apply await_all_responds_settles_all in Hsome.
  apply NoDup_Permutation; [done|apply NoDup_seq|].
  intros i. rewrite elem_of_seq. split; [intros Hi%Hbound; lia|].
  intros [_ Hi]. simpl in Hi.
  destruct (lookup_lt_is_Some_2 tickers i Hi) as [ticker Ht].
  destruct (Hsome i Hi) as [o Ho].
  pose proof (await_all_trace_records tickers env ((fun _ => None) <$> tickers)
                i ticker o) as Hrec.
  rewrite list_lookup_fmap Ht in Hrec. specialize (Hrec eq_refl eq_refl Ho).
  fold run in Hrec. unfold settled_indices. apply list_elem_of_omap.
  by eexists (Settle i _).
Qed.

Lemma each_lookup_settles_once_witness :
  settled_indices
    (GET (fun cp => (cp, [])) (fun _ => js "NaN") (Some (js "a,b,c"))
       [ (2%nat, Fulfils VNull); (0%nat, Fulfils VNull); (2%nat, Fulfils VNull);
         (7%nat, Fulfils VNull); (1%nat, Fulfils VNull) ]).1
  ≡ₚ seq 0 3.
Proof.
  apply (each_lookup_settles_once (fun cp => (cp, [])) (fun _ => js "NaN")
           (Some (js "a,b,c"))
           [ (2%nat, Fulfils VNull); (0%nat, Fulfils VNull); (2%nat, Fulfils VNull);
             (7%nat, Fulfils VNull); (1%nat, Fulfils VNull) ]).
  - by vm_compute.
  - vm_compute. by eexists.
Defined.

(** ** Rows, continued *)

Lemma ok_response_inj data data' :
  ok_response data = ok_response data' → data = data'.
Proof.
  intros H.
  apply (f_equal (fun r => match body r with
                           | VObject props => props !! js "data"
                           | _ => None
                           end)) in H.
  simpl in H. rewrite !lookup_singleton_eq in H. by simplify_eq.
Qed.





Section CallCount.
Import JsString.


Lemma length_filter_le {A} (P : A → bool) (l : list A) :
  (length (List.filter P l) ≤ length l)%nat.
Proof. induction l as [|x l IH]; simpl; [done|]. destruct (P x); simpl; lia. Qed.

End CallCount.



(** ** The history route, continued *)

Section MapThrowing.
Context {A B : Type} (f : A → throwing B).

Lemma map_throwing_inr xs ys :
  map_throwing f xs = inr ys ↔ Forall2 (fun x y => f x = inr y) xs ys.
Proof.
  revert ys. induction xs as [|x xs IH]; intros ys; simpl.
  - split; [by intros [= <-]; constructor|by inversion 1].
  - destruct (f x) as [e|y] eqn:Hx; simpl.
    + split; [done|]. inversion 1; congruence.
    + destruct (map_throwing f xs) as [e|ys'] eqn:Hxs; simpl.
      * split; [done|]. inversion 1 as [|? y' ? ys'' Hy Hys]; subst.
        apply IH in Hys. done.
      * split.
        -- intros [= <-]. constructor; [done|]. by apply IH.
        -- inversion 1 as [|? y' ? ys'' Hy Hys]; subst.
           apply IH in Hys. congruence.
Qed.

Lemma map_throwing_all_inr xs :
  Forall (fun x => ∃ y, f x = inr y) xs → ∃ ys, map_throwing f xs = inr ys.
Proof.
  induction 1 as [|x xs [y Hy] _ [ys Hys]]; simpl; [by eexists|].
  rewrite Hy Hys. by eexists.
Qed.



End MapThrowing.

Section HistoryDataFacts.
Import HistoryData.
Variable up : N → N * list N.
Variable low : jsstring → jsstring.
Variable Date_of : value → option Z.
Variable toISOString : Z → jsstring.

Lemma keep_close r :
  keep r = true → ∃ x, optional_read r "close" = Plain (VNum x).
Proof.
  unfold keep. intros [_ Hnum]%andb_prop.
  destruct (optional_read r "close") as [[]|]; try done. by eexists.
Qed.

Lemma keep_read_row r property :
  keep r = true → read_row r property = inr (optional_read r property).
Proof.
  unfold keep. intros [Hdate _]%andb_prop.
  destruct r as [v|props]; [|done]. simpl.
  rewrite read_property_of; [|done]. by destruct v.
Qed.

(** The point of a row that passed the filter. *)
Lemma point_keep r :
  keep r = true →
  point Date_of toISOString r
  = match time_of Date_of (optional_read r "date") with
    | Some t =>
        inr (VObject {[ js "date" := VStr (take 10 (toISOString t));
                        js "close" := plain_of toISOString (optional_read r "close") ]})
    | None => inl (RError (js "RangeError") (js "Invalid time value"))
    end.
Proof.
  intros Hkeep. unfold point. rewrite !keep_read_row; [done..|]. simpl.
  unfold iso_day. by destruct (time_of Date_of (optional_read r "date")).
Qed.

Lemma GET_listed_range tickerParam rangeParam historical :
  History.ticker_of up tickerParam ≠ [] →
  History.range_of low rangeParam ∈ History.ranges →
  ∃ days,
    History.RANGE_TO_DAYS !! History.range_of low rangeParam = Some days
    ∧ GET up low Date_of toISOString tickerParam rangeParam historical
      = ([(History.ticker_of up tickerParam, History.Own days)],
         respond Date_of toISOString (History.ticker_of up tickerParam)
           (History.range_of low rangeParam)
           (historical (History.ticker_of up tickerParam) (History.Own days))).
Proof.
  intros Hticker [days Hdays]%RANGE_TO_DAYS_listed. exists days. split; [done|].
  unfold GET. rewrite GET_unfold ToBoolean_VStr.
  rewrite bool_decide_eq_false_2; [done|]. simpl.
  unfold History.RANGE_TO_DAYS_at. rewrite Hdays. simpl.
  by rewrite (RANGE_TO_DAYS_truthy _ _ Hdays).
Qed.

End HistoryDataFacts.

(** X7: for a request with a ticker and a listed range whose lookup is
    fulfilled, when every row that passes the filter has a valid date: the
    provider is called once, with the upper-cased ticker and the days of the
    range, and the response is 200 with the upper-cased ticker, the
    lower-cased range and one point for each row that passes the filter, in
    the order of the rows; a point is the first ten code units of the ISO
    form of the row's date and the row's close, which is a number. *)
Theorem history_points
    (up : N → N * list N) (low : jsstring → jsstring)
    (Date_of : value → option Z) (toISOString : Z → jsstring)
    (tickerParam rangeParam : option jsstring)
    (historical : jsstring → History.property → HistoryData.upstream)
    (days : Z) (rows : option (list HistoryData.row)) :
  History.ticker_of up tickerParam ≠ [] →
  History.RANGE_TO_DAYS !! History.range_of low rangeParam = Some days →
  historical (History.ticker_of up tickerParam) (History.Own days)
  = HistoryData.Fulfils rows →
  Forall (fun r => is_Some (HistoryData.time_of Date_of
                              (HistoryData.optional_read r "date")))
    (List.filter HistoryData.keep (default [] rows)) →
  ∃ data,
    HistoryData.GET up low Date_of toISOString tickerParam rangeParam historical
    = ([(History.ticker_of up tickerParam, History.Own days)],
       inr {| status := 200;
              body := VObject {[ js "ticker" := VStr (History.ticker_of up tickerParam);
                                 js "range" := VStr (History.range_of low rangeParam);
                                 js "data" := VArray data ]} |})
    ∧ length data = length (List.filter HistoryData.keep (default [] rows))
    ∧ (length data ≤ length (default [] rows))%nat
    ∧ ∀ i r,
        List.filter HistoryData.keep (default [] rows) !! i = Some r →
        ∃ t x,
          HistoryData.time_of Date_of (HistoryData.optional_read r "date") = Some t
          ∧ HistoryData.optional_read r "close" = HistoryData.Plain (VNum x)
          ∧ data !! i
            = Some (VObject {[ js "date" := VStr (take 10 (toISOString t));
                               js "close" := VNum x ]}).
Proof.
  intros Hticker Hdays Hful Hvalid.
  destruct (GET_listed_range up low Date_of toISOString tickerParam rangeParam
              historical Hticker) as (days' & Hdays' & ->).
  { apply RANGE_TO_DAYS_listed. by rewrite Hdays. }
  assert (days' = days) as -> by congruence. rewrite Hful.
  set (kept := List.filter HistoryData.keep (default [] rows)) in *.
  assert (Forall (fun r => HistoryData.keep r = true) kept) as Hkept.
  { apply Forall_forall. intros r Hr%list_elem_of_In. by apply filter_In in Hr as [_ ?]. }
  destruct (map_throwing_all_inr (HistoryData.point Date_of toISOString) kept)
    as [data Hdata].
  { apply Forall_forall. intros r Hr.
    rewrite Forall_forall in Hkept. rewrite Forall_forall in Hvalid.
    rewrite point_keep; [by apply Hkept|].
    destruct (Hvalid r Hr) as [t ->]. by eexists. }
  exists data. unfold HistoryData.respond. fold kept. rewrite Hdata. simpl.
  apply map_throwing_inr in Hdata.
  pose proof (Forall2_length _ _ _ Hdata) as Hlen.
  split_and!; [done|done| |].
  - rewrite -Hlen. apply length_filter_le.
  - intros i r Hr.
    destruct (Forall2_lookup_l _ _ _ _ _ Hdata Hr) as (v & Hv & Hpoint).
    rewrite Forall_forall in Hkept.
    assert (HistoryData.keep r = true) as Hkeep.
    { apply Hkept. by eapply list_elem_of_lookup_2. }
    rewrite point_keep in Hpoint; [done|].
    destruct (keep_close r Hkeep) as [x Hx].
    destruct (HistoryData.time_of Date_of _) as [t|]; [|done].
    exists t, x. split_and!; [done..|]. rewrite Hx in Hpoint. by simplify_eq.
Qed.

Lemma history_points_witness :
  HistoryData.GET (fun cp => (cp, [])) (fun s => s) (fun _ => None)
    (fun _ => js "2024-01-02T00:00:00.000Z") (Some (js "aapl")) None
    (fun _ _ =>
       HistoryData.Fulfils
         (Some [ HistoryData.RowObject
                   {[ js "date" := HistoryData.DateObject (Some 1704153600000%Z);
                      js "close" := HistoryData.Plain (VNum (S754_finite false 3 6)) ]};
                 HistoryData.RowObject
                   {[ js "date" := HistoryData.DateObject (Some 1704240000000%Z);
                      js "close" := HistoryData.Plain VNull ]};
                 HistoryData.RowValue VUndefined ]))
  = ([(js "AAPL", History.Own 366)],
     inr {| status := 200;
            body := VObject {[ js "ticker" := VStr (js "AAPL");
                               js "range" := VStr (js "1y");
                               js "data" :=
                                 VArray [ VObject {[ js "date" := VStr (js "2024-01-02");
                                                     js "close" := VNum (S754_finite false 3 6) ]} ] ]} |}).
Proof.
  destruct (history_points (fun cp => (cp, [])) (fun s => s) (fun _ => None)
              (fun _ => js "2024-01-02T00:00:00.000Z") (Some (js "aapl")) None
              (fun _ _ =>
                 HistoryData.Fulfils
                   (Some [ HistoryData.RowObject
                             {[ js "date" := HistoryData.DateObject (Some 1704153600000%Z);
                                js "close" := HistoryData.Plain (VNum (S754_finite false 3 6)) ]};
                           HistoryData.RowObject
                             {[ js "date" := HistoryData.DateObject (Some 1704240000000%Z);
                                js "close" := HistoryData.Plain VNull ]};
                           HistoryData.RowValue VUndefined ]))
              366%Z
              (Some [ HistoryData.RowObject
                        {[ js "date" := HistoryData.DateObject (Some 1704153600000%Z);
                           js "close" := HistoryData.Plain (VNum (S754_finite false 3 6)) ]};
                      HistoryData.RowObject
                        {[ js "date" := HistoryData.DateObject (Some 1704240000000%Z);
                           js "close" := HistoryData.Plain VNull ]};
                      HistoryData.RowValue VUndefined ]))
    as (data & Hget & _).
  - by vm_compute.
  - by vm_compute.
  - reflexivity.
  - vm_compute. repeat constructor. by eexists.
  - by vm_compute.
Defined.



(** X9: for a request with a ticker and a listed range whose lookup is
    rejected: with an error or a primitive other than [undefined] and
    [null], the response is 500 with
    [{ error: "Failed to fetch history", details }], [details] being the
    message of the error ([undefined] if it has none); with [undefined] or
    [null], reading the message throws and the handler ends with a
    [TypeError] instead of a response. *)
Theorem history_upstream_failure
    (up : N → N * list N) (low : jsstring → jsstring)
    (Date_of : value → option Z) (toISOString : Z → jsstring)
    (tickerParam rangeParam : option jsstring)
    (historical : jsstring → History.property → HistoryData.upstream)
    (days : Z) (e : reason) :
  History.ticker_of up tickerParam ≠ [] →
  History.RANGE_TO_DAYS !! History.range_of low rangeParam = Some days →
  historical (History.ticker_of up tickerParam) (History.Own days)
  = HistoryData.Rejects e →
  (e ≠ RUndefined → e ≠ RNull →
   (HistoryData.GET up low Date_of toISOString tickerParam rangeParam historical).2
   = inr {| status := 500;
            body := VObject {[ js "error" := VStr (js "Failed to fetch history");
                               js "details" := message_of e ]} |})
  ∧ (e = RUndefined ∨ e = RNull →
     ∃ message,
       (HistoryData.GET up low Date_of toISOString tickerParam rangeParam historical).2
       = inl (RError (js "TypeError") message)).
Proof.
  intros Hticker Hdays Hrej.
  destruct (GET_listed_range up low Date_of toISOString tickerParam rangeParam
              historical Hticker) as (days' & Hdays' & ->).
  { apply RANGE_TO_DAYS_listed. by rewrite Hdays. }
  assert (days' = days) as -> by congruence. rewrite Hrej. simpl. split.
  - intros Hu Hn. by destruct e.
  - intros [->| ->]; by eexists.
Qed.

Lemma history_upstream_failure_witness :
  (HistoryData.GET (fun cp => (cp, [])) (fun s => s) (fun _ => None)
     (fun _ => js "") (Some (js "aapl")) (Some (js "1m"))
     (fun _ _ => HistoryData.Rejects (RError (js "Error") (js "Not Found")))).2
  = inr {| status := 500;
           body := VObject {[ js "error" := VStr (js "Failed to fetch history");
                              js "details" := VStr (js "Not Found") ]} |}.
Proof.
  apply (history_upstream_failure
           (fun cp => (cp, [])) (fun s => s) (fun _ => None)
           (fun _ => js "") (Some (js "aapl")) (Some (js "1m"))
           (fun _ _ => HistoryData.Rejects (RError (js "Error") (js "Not Found")))
           31%Z (RError (js "Error") (js "Not Found"))).
  - by vm_compute.
  - by vm_compute.
  - reflexivity.
  - done.
  - done.
Defined.

(** ** The single-item routes *)

Lemma param_or_empty (param : option jsstring) :
  param_or param (js "") = [] ↔ param = None ∨ param = Some [].
Proof.
  destruct param as [[|u s]|]; simpl; split; auto; try done.
  intros [|]; done.
Qed.

Lemma ticker_missing_iff up (param : option jsstring) :
  JsString.toUpperCase up (param_or param (js "")) = []
  ↔ param = None ∨ param = Some [].
Proof. by rewrite toUpperCase_nil_iff param_or_empty. Qed.

(** X10: each of the three single-item routes answers 400 with
    [{ error: "Missing ticker" }], without calling the provider, when the
    ticker parameter is absent or the empty string; the quote and analyst
    routes call the provider exactly once for any other parameter, with the
    parameter in upper case and not trimmed, and the history route then
    makes no call only when it answers 400 with
    [{ error: "Invalid range" }]. *)
Theorem single_routes_missing_ticker
    (up : N → N * list N) (low : jsstring → jsstring)
    (Date_of : value → option Z) (toISOString : Z → jsstring)
    (nts : number → jsstring) (not_a_function : jsstring)
    (tickerParam rangeParam : option jsstring)
    (historical : jsstring → History.property → HistoryData.upstream)
    (quote quoteSummary : jsstring → outcome) :
  (tickerParam = None ∨ tickerParam = Some [] →
   HistoryData.GET up low Date_of toISOString tickerParam rangeParam historical
   = ([], inr missing_ticker_response)
   ∧ Quote.GET up tickerParam quote = ([], inr missing_ticker_response)
   ∧ Analyst.GET up nts not_a_function tickerParam quoteSummary
     = ([], missing_ticker_response))
  ∧ (∀ raw, tickerParam = Some raw → raw ≠ [] →
       (Quote.GET up tickerParam quote).1 = [JsString.toUpperCase up raw]
       ∧ (Analyst.GET up nts not_a_function tickerParam quoteSummary).1
         = [JsString.toUpperCase up raw]
       ∧ ((HistoryData.GET up low Date_of toISOString tickerParam rangeParam
             historical).1 = []
          → (HistoryData.GET up low Date_of toISOString tickerParam rangeParam
               historical).2 = inr History.invalid_range)).
Proof.
  split.
  - intros Hmissing%(ticker_missing_iff up).
    unfold HistoryData.GET, Quote.GET, Analyst.GET. cbv zeta.
    rewrite GET_unfold. unfold History.ticker_of. by rewrite Hmissing.
  - intros raw -> Hraw.
    assert (JsString.toUpperCase up (param_or (Some raw) (js "")) ≠ []) as Hne.
    { rewrite ticker_missing_iff. intros [|[= ->]]; done. }
    assert (param_or (Some raw) (js "") = raw) as Hraw' by by destruct raw.
    unfold HistoryData.GET, Quote.GET, Analyst.GET. cbv zeta.
    rewrite GET_unfold. unfold History.ticker_of.
    rewrite !ToBoolean_VStr bool_decide_eq_false_2; [done|].
    rewrite Hraw'. simpl. split_and!; [done..|].
    by destruct (negb (History.truthy _)).
Qed.

Lemma single_routes_missing_ticker_witness :
  (Quote.GET (fun cp => (cp, [])) (Some (js " ")) (fun _ => Fulfils VNull)).1
  = [js " "].
Proof.
  apply (proj2 (single_routes_missing_ticker
                  (fun cp => (cp, [])) (fun s => s) (fun _ => None) (fun _ => js "")
                  (fun _ => js "NaN") (js "") (Some (js " ")) None
                  (fun _ _ => HistoryData.Rejects RNull)
                  (fun _ => Fulfils VNull) (fun _ => Fulfils VNull))
           (js " ") eq_refl).
  done.
Defined.

Section QuoteFacts.
Variable up : N → N * list N.

Lemma quote_body_readable ticker q :
  nullish q = false →
  Quote.quote_body ticker q
  = inr (VObject {[ js "ticker" := VStr ticker;
                    js "price" := property_of q "regularMarketPrice";
                    js "change" := property_of q "regularMarketChange";
                    js "changePercent" := property_of q "regularMarketChangePercent";
                    js "currency" := property_of q "currency";
                    js "name" := property_of q "shortName"
                                 ||| property_of q "longName" ||| VStr ticker ]}).
Proof. intros Hq. unfold Quote.quote_body. by rewrite !read_property_of. Qed.

Lemma Quote_GET_ticker raw quote :
  raw ≠ [] →
  Quote.GET up (Some raw) quote
  = ([JsString.toUpperCase up raw],
     match
       match quote (JsString.toUpperCase up raw) with
       | Rejects e => inl e
       | Fulfils q =>
           try! body ← Quote.quote_body (JsString.toUpperCase up raw) q;
           inr (Response_json body None)
       end
     with
     | inr r => inr r
     | inl e =>
         try! details ← catch_message e;
         inr (Response_json
                (VObject {[ js "error" := VStr (js "Failed to fetch quote");
                            js "details" := details ]}) (Some 500%Z))
     end).
Proof.
  intros Hraw. unfold Quote.GET. cbv zeta.
  assert (param_or (Some raw) (js "") = raw) as -> by by destruct raw.
  rewrite ToBoolean_VStr bool_decide_eq_false_2; [|done].
  by rewrite toUpperCase_nil_iff.
Qed.

Lemma tickers_of_single raw :
  raw ≠ [] → 0x2C ∉ raw → JsString.trim raw = raw →
  tickers_of up (Some raw) = [JsString.toUpperCase up raw].
Proof.
  intros Hraw Hcomma Htrim. unfold tickers_of, parse_tickers.
  assert (param_or (Some raw) (js "") = raw) as -> by by destruct raw.
  rewrite split_without_sep; [done|]. cbn [fmap list_fmap List.filter].
  rewrite Htrim ToBoolean_VStr bool_decide_eq_false_2; [|done].
  by rewrite toUpperCase_nil_iff.
Qed.

End QuoteFacts.

(** X11: the quote route and the batch route agree on a symbol: for a
    ticker parameter without commas or white space around it and a lookup
    fulfilled with the same payload (other than [undefined] and [null]),
    the response of the quote route is 200 and its [ticker], [name],
    [price], [changePercent] and [currency] are those of the one row of the
    batch response. *)
Theorem quote_agrees_with_batch
    (up : N → N * list N) (nts : number → jsstring)
    (raw : jsstring) (q : value) (quote : jsstring → outcome) :
  raw ≠ [] →
  0x2C ∉ raw →
  JsString.trim raw = raw →
  nullish q = false →
  quote (JsString.toUpperCase up raw) = Fulfils q →
  ∃ body row,
    (Quote.GET up (Some raw) quote).2
    = inr {| status := 200; body := VObject body |}
    ∧ (GET up nts (Some raw) [(0%nat, Fulfils q)]).2
      = Some (ok_response [VObject row])
    ∧ row !! js "ok" = Some (VBool true)
    ∧ body !! js "ticker" = Some (VStr (JsString.toUpperCase up raw))
    ∧ Forall (fun property => body !! property = row !! property)
        (js <$> [ "ticker"; "name"; "price"; "changePercent"; "currency" ]%string).
Proof.
  intros Hraw Hcomma Htrim Hq Hquote.
  rewrite Quote_GET_ticker; [done|]. rewrite Hquote quote_body_readable; [done|].
  pose proof (tickers_of_single up raw Hraw Hcomma Htrim) as Htickers.
  destruct (GET_fulfilled_row up nts (Some raw) [(0%nat, Fulfils q)] 0
              (JsString.toUpperCase up raw) q) as (data & Hget & Hrow).
  { by rewrite Htickers. }
  { rewrite Htickers. intros [|i] Hi; [by eexists|simpl in Hi; lia]. }
  { done. }
  { done. }
  destruct (GET_data up nts (Some raw) [(0%nat, Fulfils q)]) as (data' & Hget' & Hlen & _).
  { by rewrite Htickers. }
  { rewrite Htickers. intros [|i] Hi; [by eexists|simpl in Hi; lia]. }
  assert (data' = data) as ->.
  { apply ok_response_inj. rewrite Hget in Hget'. congruence. }
  rewrite Htickers in Hlen. destruct data as [|v [|? ?]]; try done.
  simpl in Hrow. injection Hrow as ->.
  eexists _, _. split_and!; [done|exact Hget|done|done|].
  by repeat constructor.
Qed.

Lemma quote_agrees_with_batch_witness :
  ∃ body,
    (Quote.GET (fun cp => (cp, [])) (Some (js "ltm.sn"))
       (fun _ => Fulfils (VObject {[ js "longName" := VStr (js "LATAM Airlines") ]}))).2
    = inr {| status := 200; body := VObject body |}
    ∧ body !! js "ticker" = Some (VStr (js "LTM.SN")).
Proof.
  destruct (quote_agrees_with_batch
              (fun cp => (cp, [])) (fun _ => js "NaN") (js "ltm.sn")
              (VObject {[ js "longName" := VStr (js "LATAM Airlines") ]})
              (fun _ => Fulfils (VObject {[ js "longName" := VStr (js "LATAM Airlines") ]})))
    as (body & row & Hquote & _ & _ & Hticker & _).
  - done.
  - by_bool_decide.
  - reflexivity.
  - reflexivity.
  - reflexivity.
  - by exists body.
Defined.

(** X12: the quote route answers a failed lookup with status 500 and
    [{ error: "Failed to fetch quote", details }]: [details] is the message
    of the error the provider rejected with ([undefined] if it has none),
    and for a lookup fulfilled with [undefined] or [null] it is the message
    of the [TypeError] of the first property read, of
    [regularMarketPrice]. *)
Theorem quote_failure
    (up : N → N * list N) (raw : jsstring) (quote : jsstring → outcome) :
  raw ≠ [] →
  (∀ e, quote (JsString.toUpperCase up raw) = Rejects e →
        e ≠ RUndefined → e ≠ RNull →
        (Quote.GET up (Some raw) quote).2
        = inr {| status := 500;
                 body := VObject {[ js "error" := VStr (js "Failed to fetch quote");
                                    js "details" := message_of e ]} |})
  ∧ (quote (JsString.toUpperCase up raw) = Fulfils VUndefined →
     (Quote.GET up (Some raw) quote).2
     = inr {| status := 500;
              body := VObject
                        {[ js "error" := VStr (js "Failed to fetch quote");
                           js "details" :=
                             VStr (js "Cannot read properties of undefined (reading 'regularMarketPrice')") ]} |})
  ∧ (quote (JsString.toUpperCase up raw) = Fulfils VNull →
     (Quote.GET up (Some raw) quote).2
     = inr {| status := 500;
              body := VObject
                        {[ js "error" := VStr (js "Failed to fetch quote");
                           js "details" :=
                             VStr (js "Cannot read properties of null (reading 'regularMarketPrice')") ]} |}).
Proof.
  intros Hraw. rewrite Quote_GET_ticker; [done|]. split_and!.
  - intros e -> Hu Hn. by destruct e.
  - by intros ->.
  - by intros ->.
Qed.

Lemma quote_failure_witness :
  (Quote.GET (fun cp => (cp, [])) (Some (js "zzzz")) (fun _ => Fulfils VUndefined)).2
  = inr {| status := 500;
           body := VObject
                     {[ js "error" := VStr (js "Failed to fetch quote");
                        js "details" :=
                          VStr (js "Cannot read properties of undefined (reading 'regularMarketPrice')") ]} |}.
Proof.
  apply (quote_failure (fun cp => (cp, [])) (js "zzzz") (fun _ => Fulfils VUndefined)).
  - done.
  - reflexivity.
Defined.

Section AnalystFacts.
Variable up : N → N * list N.
Variable nts : number → jsstring.
Variable not_a_function : jsstring.

Lemma Analyst_GET_ticker raw quoteSummary :
  raw ≠ [] →
  Analyst.GET up nts not_a_function (Some raw) quoteSummary
  = ([JsString.toUpperCase up raw],
     match
       match quoteSummary (JsString.toUpperCase up raw) with
       | Rejects e => inl e
       | Fulfils summary =>
           try! body ← Analyst.analyst_body not_a_function
                         (JsString.toUpperCase up raw) summary;
           inr (Response_json body None)
       end
     with
     | inr r => r
     | inl e =>
         Response_json
           (VObject {[ js "error" := VStr (js "Failed to fetch analyst data");
                       js "details" := message_of e ||| VStr (String_of nts e) ]})
           (Some 500%Z)
     end).
Proof.
  intros Hraw. unfold Analyst.GET. cbv zeta.
  assert (param_or (Some raw) (js "") = raw) as -> by by destruct raw.
  rewrite ToBoolean_VStr bool_decide_eq_false_2; [|done].
  by rewrite toUpperCase_nil_iff.
Qed.

Lemma coalesce_null_defined a : coalesce a VNull ≠ VUndefined.
Proof. by destruct a. Qed.

End AnalystFacts.

(** X13: when the summary lookup of the analyst route is fulfilled and the
    upgrade history, if there is one, is an array (or a string), the
    response is 200; its [targets] has exactly [mean], [high], [low] and
    [analystCount] and its [consensus] exactly [recommendationKey] and
    [recommendationMean], none of them [undefined]: each is the property of
    [financialData], or [null] where that is [undefined] or [null], also
    when the summary has no [financialData] or is itself [undefined];
    [upgrades] is the first five entries of the history, in order, and the
    empty array when there is no history. *)
Theorem analyst_response_shape
    (up : N → N * list N) (nts : number → jsstring) (not_a_function : jsstring)
    (raw : jsstring) (quoteSummary : jsstring → outcome) (summary : value) :
  raw ≠ [] →
  quoteSummary (JsString.toUpperCase up raw) = Fulfils summary →
  sliceable (upgrade_history summary) = true →
  ∃ targets consensus upgrades,
    (Analyst.GET up nts not_a_function (Some raw) quoteSummary).2
    = {| status := 200;
         body := VObject {[ js "ticker" := VStr (JsString.toUpperCase up raw);
                            js "targets" := VObject targets;
                            js "consensus" := VObject consensus;
                            js "upgrades" := upgrades ]} |}
    ∧ dom targets
      = list_to_set (js <$> [ "mean"; "high"; "low"; "analystCount" ]%string)
    ∧ dom consensus
      = list_to_set (js <$> [ "recommendationKey"; "recommendationMean" ]%string)
    ∧ map_Forall (fun _ v => v ≠ VUndefined) targets
    ∧ map_Forall (fun _ v => v ≠ VUndefined) consensus
    ∧ targets !! js "mean"
      = Some (coalesce (property_of (financial_data summary) "targetMeanPrice") VNull)
    ∧ targets !! js "high"
      = Some (coalesce (property_of (financial_data summary) "targetHighPrice") VNull)
    ∧ targets !! js "low"
      = Some (coalesce (property_of (financial_data summary) "targetLowPrice") VNull)
    ∧ targets !! js "analystCount"
      = Some (coalesce (property_of (financial_data summary) "numberOfAnalystOpinions") VNull)
    ∧ consensus !! js "recommendationKey"
      = Some (coalesce (property_of (financial_data summary) "recommendationKey") VNull)
    ∧ consensus !! js "recommendationMean"
      = Some (coalesce (property_of (financial_data summary) "recommendationMean") VNull)
    ∧ (∀ items, upgrade_history summary = VArray items →
                upgrades = VArray (take 5 items)
                ∧ (length (take 5 items) ≤ 5)%nat
                ∧ take 5 items `prefix_of` items)
    ∧ (nullish (upgrade_history summary) = true → upgrades = VArray []).
Proof.
  intros Hraw Hsummary Hslice.
  rewrite Analyst_GET_ticker; [done|]. rewrite Hsummary.
  unfold Analyst.analyst_body. fold (upgrade_history summary).
  fold (financial_data summary).
  assert (∃ sliced,
            Analyst.slice5 not_a_function (upgrade_history summary) = inr sliced
            ∧ (∀ items, upgrade_history summary = VArray items →
                        sliced = VArray (take 5 items))
            ∧ (nullish (upgrade_history summary) = true → sliced = VUndefined))
    as (sliced & -> & Harray & Hnullish).
  { destruct (upgrade_history summary); try done; eexists;
      (split; [done|]); split; try done; by intros ? [= ->]. }
  eexists _, _, _. cbn zeta. cbn [bind Response_json default].
  split_and!; [reflexivity|..].
  - rewrite !dom_insert_L dom_empty_L. simpl. set_solver.
  - rewrite !dom_insert_L dom_empty_L. simpl. set_solver.
  - repeat (apply map_Forall_insert_2; [apply coalesce_null_defined|]).
    apply map_Forall_empty.
  - repeat (apply map_Forall_insert_2; [apply coalesce_null_defined|]).
    apply map_Forall_empty.
  - done.
  - done.
  - done.
  - done.
  - done.
  - done.
  - intros items Hitems. rewrite (Harray items Hitems). split_and!.
    + done.
    + rewrite length_take. lia.
    + apply prefix_take.
  - intros Hn. by rewrite (Hnullish Hn).
Qed.

Lemma analyst_response_shape_witness :
  (Analyst.GET (fun cp => (cp, [])) (fun _ => js "NaN") (js "") (Some (js "aapl"))
     (fun _ => Fulfils VUndefined)).2
  = {| status := 200;
       body := VObject
                 {[ js "ticker" := VStr (js "AAPL");
                    js "targets" :=
                      VObject {[ js "mean" := VNull; js "high" := VNull;
                                 js "low" := VNull; js "analystCount" := VNull ]};
                    js "consensus" :=
                      VObject {[ js "recommendationKey" := VNull;
                                 js "recommendationMean" := VNull ]};
                    js "upgrades" := VArray [] ]} |}.
Proof.
  destruct (analyst_response_shape
              (fun cp => (cp, [])) (fun _ => js "NaN") (js "") (js "aapl")
              (fun _ => Fulfils VUndefined) VUndefined)
    as (targets & consensus & upgrades & Hget & _).
  - done.
  - reflexivity.
  - reflexivity.
  - by vm_compute.
Defined.

(** X14: the analyst route answers 500 with
    [{ error: "Failed to fetch analyst data", details }] when the lookup is
    rejected, [details] being the message of the error if that is truthy and
    the string form of the error otherwise, also for [undefined] and
    [null]; and also when the lookup is fulfilled but the upgrade history is
    a value without [slice] (a boolean, a number, an object): then the
    targets are not returned either. *)
Theorem analyst_failure
    (up : N → N * list N) (nts : number → jsstring) (not_a_function : jsstring)
    (raw : jsstring) (quoteSummary : jsstring → outcome) :
  raw ≠ [] →
  (∀ e, quoteSummary (JsString.toUpperCase up raw) = Rejects e →
        (Analyst.GET up nts not_a_function (Some raw) quoteSummary).2
        = {| status := 500;
             body := VObject
                       {[ js "error" := VStr (js "Failed to fetch analyst data");
                          js "details" :=
                            if ToBoolean (message_of e) then message_of e
                            else VStr (String_of nts e) ]} |})
  ∧ (∀ summary,
       quoteSummary (JsString.toUpperCase up raw) = Fulfils summary →
       sliceable (upgrade_history summary) = false →
       (Analyst.GET up nts not_a_function (Some raw) quoteSummary).2
       = {| status := 500;
            body := VObject
                      {[ js "error" := VStr (js "Failed to fetch analyst data");
                         js "details" :=
                           VStr (match not_a_function with
                                 | [] => js "TypeError"
                                 | _ => not_a_function
                                 end) ]} |}).
Proof.
  intros Hraw. rewrite Analyst_GET_ticker; [done|]. split.
  - by intros e ->.
  - intros summary -> Hslice. unfold Analyst.analyst_body.
    fold (upgrade_history summary).
    destruct (upgrade_history summary); try done;
      by destruct not_a_function.
Qed.

Lemma analyst_failure_witness :
  (Analyst.GET (fun cp => (cp, [])) (fun _ => js "NaN") (js "x.slice is not a function")
     (Some (js "aapl"))
     (fun _ => Fulfils
                 (VObject {[ js "upgradeDowngradeHistory" :=
                               VObject {[ js "history" := VObject ∅ ]} ]}))).2
  = {| status := 500;
       body := VObject
                 {[ js "error" := VStr (js "Failed to fetch analyst data");
                    js "details" := VStr (js "x.slice is not a function") ]} |}.
Proof.
  apply (proj2 (analyst_failure
                  (fun cp => (cp, [])) (fun _ => js "NaN")
                  (js "x.slice is not a function") (js "aapl")
                  (fun _ => Fulfils
                              (VObject {[ js "upgradeDowngradeHistory" :=
                                            VObject {[ js "history" := VObject ∅ ]} ]}))
                  ltac:(done))
           (VObject {[ js "upgradeDowngradeHistory" :=
                         VObject {[ js "history" := VObject ∅ ]} ]})).
  - reflexivity.
  - by vm_compute.
Defined.

(** ** The page's snapshot *)

Section SnapshotFacts.
Import Snapshot.
Variable nts : number → jsstring.
Variable not_iterable : jsstring.

(** A run of assignments under distinct keys, none of them [__proto__]:
    each key holds its row, and nothing else changes. *)
Lemma assign_all_distinct rows keys map :
  Forall2 (fun row key => read row "ticker" = inr (VStr key)
                          ∧ key ≠ js "__proto__") rows keys →
  NoDup keys →
  ∃ map',
    assign_all nts map rows = inr map'
    ∧ prototype map' = prototype map
    ∧ (∀ i key row, keys !! i = Some key → rows !! i = Some row →
                    own map' !! key = Some row)
    ∧ (∀ key, key ∉ keys → own map' !! key = own map !! key).
Proof.
  intros Hall. revert map.
  induction Hall as [|row key rows keys [Hread Hproto] _ IH]; intros map Hnodup.
  - exists map. split_and!; [done..| |done]. by intros [|?] ? ?.
  - apply NoDup_cons in Hnodup as [Hfresh Hnodup].
    destruct (IH {| own := <[key := row]> (own map); prototype := prototype map |}
                Hnodup) as (map' & Hrun & Hprototype & Hkeys & Hothers).
    exists map'. split_and!.
    + cbn [assign_all]. unfold assign. rewrite Hread. simpl.
      by rewrite bool_decide_eq_false_2.
    + done.
    + intros [|i] key' row' Hkey Hrow; simplify_eq/=.
      * rewrite Hothers; [done|]. by rewrite lookup_insert_eq.
      * by eapply Hkeys.
    + intros key' Hnot. apply not_elem_of_cons in Hnot as [Hne Hnot].
      rewrite Hothers; [done|]. simpl. by rewrite lookup_insert_ne.
Qed.

Lemma to_json_row_ticker (ticker : jsstring) (o : outcome) :
  read (to_json (result_row nts (VStr ticker) (quote_task ticker o))) "ticker"
  = inr (VStr ticker).
Proof.
  destruct (row_tagged nts ticker o) as (row & ok & -> & Hticker & _).
  simpl. by rewrite lookup_omap Hticker.
Qed.

Lemma normalized_not_proto up (t : jsstring) :
  normalized up t → t ≠ js "__proto__".
Proof. intros (_ & _ & _ & Hupper) ->. by vm_compute in Hupper. Qed.

Lemma rows_of_array rows :
  Snapshot.rows_of not_iterable (VArray rows) = inr rows.
Proof. done. Qed.

Lemma to_json_ok_response data :
  to_json (body (ok_response data))
  = VObject {[ js "data" := VArray (to_json <$> data) ]}.
Proof.
  simpl. by rewrite (omap_singleton_Some _ _ _ (VArray (to_json <$> data))).
Qed.

End SnapshotFacts.

(** X15: the page's snapshot of a batch: for a list of distinct normalized
    symbols (such as the page's own list) whose lookups all settle, the
    batch route answers the page's request and [loadSnapshot] ends with no
    error and with a snapshot whose properties are exactly the requested
    symbols, each holding the JSON form of the row of its own lookup. *)
Theorem snapshot_holds_each_row
    (up : N → N * list N) (nts : number → jsstring) (not_iterable : jsstring)
    (tickers : list jsstring) (env : list (nat * outcome)) :
  tickers ≠ [] →
  Forall (normalized up) tickers →
  NoDup tickers →
  settles_all (length tickers) env →
  ∃ res,
    (GET up nts (Some (Page.snapshot_query tickers)) env).2 = Some res
    ∧ Snapshot.error (Snapshot.loadSnapshot nts not_iterable (Snapshot.Receives res))
      = VStr (js "")
    ∧ Snapshot.loadingSnapshot
        (Snapshot.loadSnapshot nts not_iterable (Snapshot.Receives res)) = false
    ∧ Snapshot.prototype
        (Snapshot.snapshot
           (Snapshot.loadSnapshot nts not_iterable (Snapshot.Receives res))) = None
    ∧ dom (Snapshot.own
             (Snapshot.snapshot
                (Snapshot.loadSnapshot nts not_iterable (Snapshot.Receives res))))
      = list_to_set tickers
    ∧ ∀ i ticker o,
        tickers !! i = Some ticker →
        first_outcome env i = Some o →
        Snapshot.own
          (Snapshot.snapshot
             (Snapshot.loadSnapshot nts not_iterable (Snapshot.Receives res)))
          !! ticker
        = Some (to_json (result_row nts (VStr ticker) (quote_task ticker o))).
Proof.
  intros Hne Hnormalized Hnodup Hall.
  pose proof (snapshot_query_round_trip up tickers Hnormalized) as Htickers.
  destruct (GET_data up nts (Some (Page.snapshot_query tickers)) env)
    as (data & Hget & Hlen & Hrows).
  { by rewrite Htickers. }
  { by rewrite Htickers. }
  rewrite Htickers in Hlen, Hrows.
  exists (ok_response data). split; [done|].
  unfold Snapshot.loadSnapshot. cbv zeta.
  rewrite to_json_ok_response.
  change (Snapshot.ok (ok_response data)) with true. cbn [negb].
  cbn [property_of]. rewrite lookup_singleton_eq. cbn [default from_option id].
  rewrite rows_of_array. cbn [bind].
  destruct (assign_all_distinct nts (to_json <$> data) tickers Snapshot.empty)
    as (map & -> & Hprototype & Hkeys & Hothers); [|done|].
  { apply Forall2_fmap_l, Forall2_same_length_lookup_2; [done|].
    intros i v ticker Hv Ht.
    destruct (Hall i) as [o Ho]; [by eapply lookup_lt_Some|].
    rewrite (Hrows _ _ _ Ht Ho) in Hv. injection Hv as <-.
    split; [apply to_json_row_ticker|].
    eapply normalized_not_proto. rewrite Forall_forall in Hnormalized.
    apply Hnormalized. by eapply list_elem_of_lookup_2. }
  cbn [Snapshot.snapshot Snapshot.error Snapshot.loadingSnapshot].
  split_and!; [done..| |].
  - apply set_eq. intros key. rewrite elem_of_dom elem_of_list_to_set.
    destruct (decide (key ∈ tickers)) as [Hin|Hnot].
    + apply list_elem_of_lookup in Hin as [i Hi].
      destruct (lookup_lt_is_Some_2 (to_json <$> data) i) as [row Hrow].
      { rewrite length_fmap Hlen. by eapply lookup_lt_Some. }
      rewrite (Hkeys _ _ _ Hi Hrow). split; [|by eexists].
      intros _. by eapply list_elem_of_lookup_2.
    + rewrite Hothers; [done|]. simpl. rewrite lookup_empty.
      split; [by intros [? ?]|done].
  - intros i ticker o Ht Ho. apply (Hkeys i); [done|].
    by rewrite list_lookup_fmap (Hrows _ _ _ Ht Ho).
Qed.

Lemma snapshot_holds_each_row_witness :
  ∃ res,
    (GET (fun cp => (cp, [])) (fun _ => js "NaN")
       (Some (Page.snapshot_query Page.allTickers))
       (reverse (imap (fun i _ => (i, Rejects (RStr (js "rate limited"))))
                   Page.allTickers))).2
    = Some res
    ∧ Snapshot.error
        (Snapshot.loadSnapshot (fun _ => js "NaN") (js "x is not iterable")
           (Snapshot.Receives res))
      = VStr (js "").
Proof.
  destruct (snapshot_holds_each_row
              (fun cp => (cp, [])) (fun _ => js "NaN") (js "x is not iterable")
              Page.allTickers
              (reverse (imap (fun i _ => (i, Rejects (RStr (js "rate limited"))))
                          Page.allTickers)))
    as (res & Hget & Herror & _).
  - done.
  - exact allTickers_normalized.
  - apply (bool_decide_unpack _). by vm_compute.
  - settles_all_tac.
  - by exists res.
Defined.

(** ** The history route: names the table inherits *)

Lemma Object_prototype_not_listed range :
  range ∈ History.Object_prototype → History.RANGE_TO_DAYS !! range = None.
Proof.
  unfold History.Object_prototype. cbn [fmap list_fmap].
  rewrite !elem_of_cons elem_of_nil.
  intros H. repeat (destruct H as [->|H]; [by vm_compute|]). done.
Qed.

(** X16: a range that, in lower case, names a property the table inherits
    from [Object.prototype] (such as [constructor] or [__proto__]) is not
    answered with 400: for a request with a ticker the handler goes on to
    call the provider, once, with what it looked up in place of a number of
    days. *)
Theorem history_inherited_range_reaches_provider
    (up : N → N * list N) (low : jsstring → jsstring)
    (Date_of : value → option Z) (toISOString : Z → jsstring)
    (tickerParam rangeParam : option jsstring)
    (historical : jsstring → History.property → HistoryData.upstream) :
  History.ticker_of up tickerParam ≠ [] →
  History.range_of low rangeParam ∈ History.Object_prototype →
  (History.range_of low rangeParam ∉ History.ranges)
  ∧ (HistoryData.GET up low Date_of toISOString tickerParam rangeParam historical).1
    = [(History.ticker_of up tickerParam,
        History.Inherited (History.range_of low rangeParam))].
Proof.
  intros Hticker Hproto.
  pose proof (Object_prototype_not_listed _ Hproto) as Hnone. split.
  - intros [days Hdays]%RANGE_TO_DAYS_listed. congruence.
  - unfold HistoryData.GET. rewrite GET_unfold ToBoolean_VStr.
    rewrite bool_decide_eq_false_2; [done|]. simpl.
    unfold History.RANGE_TO_DAYS_at. rewrite Hnone.
    by rewrite bool_decide_eq_true_2.
Qed.

Lemma history_inherited_range_reaches_provider_witness :
  (HistoryData.GET (fun cp => (cp, [])) (fun s => s) (fun _ => None)
     (fun _ => js "") (Some (js "aapl")) (Some (js "__PROTO__"))
     (fun _ _ => HistoryData.Fulfils None)).1
  = [(js "AAPL", History.Inherited (js "__proto__"))].
Proof.
  apply (history_inherited_range_reaches_provider
           (fun cp => (cp, [])) (fun s => s) (fun _ => None)
           (fun _ => js "") (Some (js "aapl")) (Some (js "__PROTO__"))
           (fun _ _ => HistoryData.Fulfils None)).
  - by vm_compute.
  - by_bool_decide.
Defined.
